(** * ReliefWeb disasters scraper: the flattener and the fetch pipeline

    A shallow embedding of [src/hdx/scraper/reliefweb/reliefweb.py]:
    [_flatten_data] with its inner closure [_flatten_inner], [_format_data],
    [ReliefWeb.scrape_data] and [ReliefWeb.generate_dataset].

    Python dictionaries keep insertion order and the column order of the
    published table depends on it, so a dictionary is an association list
    whose keys are pairwise distinct; assignment to an existing key keeps
    the key's position, assignment to a new key appends.

    The flattener is embedded twice.  On trees, with the closure variable
    [flat_dict] threaded through as state: this is the model the claims
    about its output are proved on.  On a store of objects, where the
    input is reached through references and [flat_dict] is an object of
    its own: this is the model for the claims about what a call leaves
    behind, and it is proved to compute what the tree model computes.

    The retriever and the logger are outside the repository.  The
    retriever is a parameter: a function from a request and its own state
    to an outcome and a new state.  The logger is a list of events.  The
    call of the HDX library that receives the rows is a parameter as
    well: a function from its arguments to an outcome. *)

From Stdlib Require Import List String Ascii ZArith Bool Lia Arith DecimalString.
Import ListNotations.
Local Open Scope string_scope.
Local Open Scope list_scope.

Set Implicit Arguments.

(** ** Python strings *)

Module PyStr.

(** [s[n:]] *)
Fixpoint slice_from (n : nat) (s : string) : string :=
  match n, s with
  | O, _ => s
  | S _, EmptyString => EmptyString
  | S n', String _ s' => slice_from n' s'
  end.

(** [s.startswith(p)] *)
Definition startswith (s p : string) : bool := String.prefix p s.

(** [bool(s)] *)
Definition truthy (s : string) : bool :=
  match s with EmptyString => false | String _ _ => true end.

(** [sep.join(xs)] *)
Definition join (sep : string) (xs : list string) : string :=
  String.concat sep xs.

(** [needle in s] *)
Fixpoint contains (needle s : string) : bool :=
  String.prefix needle s ||
  match s with
  | EmptyString => false
  | String _ s' => contains needle s'
  end.

(** [str(z)] for an [int] *)
Definition of_Z (z : Z) : string := NilZero.string_of_int (Z.to_int z).

End PyStr.

(** ** Insertion-ordered dictionaries *)

Module Dict.
Section Ops.
Variable V : Type.

Definition t := list (string * V).

(** [d.get(k)] *)
Fixpoint get (d : t) (k : string) : option V :=
  match d with
  | [] => None
  | (k', v) :: d' => if String.eqb k' k then Some v else get d' k
  end.

(** [k in d] *)
Definition mem (d : t) (k : string) : bool :=
  match get d k with Some _ => true | None => false end.

(** [d[k] = v]: an existing key keeps its place, a new one goes last *)
Fixpoint set (d : t) (k : string) (v : V) : t :=
  match d with
  | [] => [(k, v)]
  | (k', v') :: d' =>
      if String.eqb k' k then (k', v) :: d' else (k', v') :: set d' k v
  end.

(** [d.pop(k, None)], the popped value dropped *)
Definition pop (d : t) (k : string) : t :=
  filter (fun kv => negb (String.eqb (fst kv) k)) d.

(** [list(d.keys())] *)
Definition keys (d : t) : list string := map fst d.

(** The keys of a Python dictionary are pairwise distinct. *)
Definition wf (d : t) : Prop := NoDup (keys d).
End Ops.
End Dict.

(** ** JSON values *)

(** A leaf of a decoded JSON document.  A [float] is carried by the text
    Python prints for it. *)
Inductive scalar : Type :=
| SNone
| SBool (b : bool)
| SInt (z : Z)
| SFloat (repr : string)
| SStr (s : string).

Local Unset Elimination Schemes.

Inductive json : Type :=
| JScalar (s : scalar)
| JList (l : list json)
| JDict (d : list (string * json)).

Local Set Elimination Schemes.

(** Structural induction through the nested lists. *)
Section JsonInduction.
Variable P : json -> Prop.
Hypothesis on_scalar : forall s, P (JScalar s).
Hypothesis on_list : forall l, Forall P l -> P (JList l).
Hypothesis on_dict : forall d, Forall (fun kv => P (snd kv)) d -> P (JDict d).

Fixpoint json_ind (t : json) : P t :=
  match t with
  | JScalar s => on_scalar s
  | JList l =>
      on_list
        ((fix all (l : list json) : Forall P l :=
            match l with
            | [] => Forall_nil _
            | x :: l' => Forall_cons x (json_ind x) (all l')
            end) l)
  | JDict d =>
      on_dict
        ((fix all (d : list (string * json)) : Forall (fun kv => P (snd kv)) d :=
            match d with
            | [] => Forall_nil _
            | kv :: d' => Forall_cons kv (json_ind (snd kv)) (all d')
            end) d)
  end.
End JsonInduction.

(** [str(v)] on a leaf *)
Definition str_scalar (v : scalar) : string :=
  match v with
  | SNone => "None"
  | SBool true => "True"
  | SBool false => "False"
  | SInt z => PyStr.of_Z z
  | SFloat r => r
  | SStr s => s
  end.

(** The flat dictionary: composite key to leaf value. *)
Definition flat := Dict.t scalar.

(** [list_items]: sub-key to the values collected for it. *)
Definition items := Dict.t (list scalar).

(** [if k not in list_items: list_items[k] = []] then
    [list_items[k].append(v)] *)
Definition items_append (list_items : items) (k : string) (v : scalar) : items :=
  let list_items :=
    if Dict.mem list_items k then list_items else Dict.set list_items k [] in
  match Dict.get list_items k with
  | Some vs => Dict.set list_items k (vs ++ [v])
  | None => list_items
  end.

(** [", ".join(map(str, v))] *)
Definition joined (v : list scalar) : scalar :=
  SStr (PyStr.join ", " (map str_scalar v)).

Section Flatten.

(** Python's [str] on a list value (the text of its [repr]), which the
    flattener applies to a list nested directly in a list. *)
Variable str_list : list json -> string.

Variable sep : string.

(** [f"{parent_key}{sep}{key}" if parent_key else key] *)
Definition new_key (parent_key key : string) : string :=
  if PyStr.truthy parent_key then parent_key ++ sep ++ key else key.

(** The scan of the shared [flat_dict] after a dictionary element:
    [for k, v in flat_dict.items(): if k.startswith(key_root):
       flattened_dict[k[len(key_root):]] = v] *)
Fixpoint scan_prefix (key_root : string) (flat_dict : flat)
    (flattened_dict : flat) : flat :=
  match flat_dict with
  | [] => flattened_dict
  | (k, v) :: rest =>
      scan_prefix key_root rest
        (if PyStr.startswith k key_root
         then Dict.set flattened_dict
                (PyStr.slice_from (String.length key_root) k) v
         else flattened_dict)
  end.

(** [for k, v in flattened_dict.items(): ... list_items[k].append(v)] *)
Fixpoint collect (flattened_dict : flat) (list_items : items) : items :=
  match flattened_dict with
  | [] => list_items
  | (k, v) :: rest => collect rest (items_append list_items k v)
  end.

(** [for k, v in list_items.items():
      flat_dict[f"{parent_key}{sep}{k}"] = ", ".join(map(str, v))] *)
Fixpoint emit (parent_key : string) (list_items : items) (flat_dict : flat)
    : flat :=
  match list_items with
  | [] => flat_dict
  | (k, v) :: rest =>
      emit parent_key rest
        (Dict.set flat_dict (parent_key ++ sep ++ k) (joined v))
  end.

(** [_flatten_inner(item, parent_key)], the shared [flat_dict] threaded
    through as state. *)
Fixpoint _flatten_inner (item : json) (parent_key : string)
    (flat_dict : flat) {struct item} : flat :=
  match item with
  | JDict d =>
      (fix each_item (d : list (string * json)) (flat_dict : flat) : flat :=
         match d with
         | [] => flat_dict
         | (key, value) :: d' =>
             each_item d'
               (_flatten_inner value (new_key parent_key key) flat_dict)
         end) d flat_dict
  | JList l =>
      let '(flat_dict, list_items) :=
        (fix each_value (l : list json) (st : flat * items) : flat * items :=
           match l with
           | [] => st
           | value :: l' =>
               let '(flat_dict, list_items) := st in
               match value with
               | JDict _ =>
                   let flat_dict := _flatten_inner value parent_key flat_dict in
                   let flattened_dict :=
                     scan_prefix (parent_key ++ sep) flat_dict [] in
                   each_value l' (flat_dict, collect flattened_dict list_items)
               | JScalar s =>
                   each_value l'
                     (flat_dict,
                      items_append list_items parent_key (SStr (str_scalar s)))
               | JList inner =>
                   each_value l'
                     (flat_dict,
                      items_append list_items parent_key (SStr (str_list inner)))
               end
           end) l (flat_dict, []) in
      emit parent_key list_items flat_dict
  | JScalar s => Dict.set flat_dict parent_key s
  end.

(** [_flatten_data(data, sep)] *)
Definition _flatten_data (data : json) : flat :=
  _flatten_inner data "" [].

(** The two loops of [_flatten_inner] on their own. *)
Definition each_item (parent_key : string) (d : list (string * json))
    (flat_dict : flat) : flat :=
  fold_left
    (fun flat_dict kv =>
       _flatten_inner (snd kv) (new_key parent_key (fst kv)) flat_dict)
    d flat_dict.

Definition value_step (parent_key : string) (st : flat * items)
    (value : json) : flat * items :=
  let '(flat_dict, list_items) := st in
  match value with
  | JDict _ =>
      let flat_dict := _flatten_inner value parent_key flat_dict in
      (flat_dict,
       collect (scan_prefix (parent_key ++ sep) flat_dict []) list_items)
  | JScalar s =>
      (flat_dict, items_append list_items parent_key (SStr (str_scalar s)))
  | JList inner =>
      (flat_dict, items_append list_items parent_key (SStr (str_list inner)))
  end.

Definition each_value (parent_key : string) (l : list json)
    (st : flat * items) : flat * items :=
  fold_left (value_step parent_key) l st.

End Flatten.

(** What the scan keeps of an entry of [flat_dict]. *)
Definition has_root (key_root : string) (kv : string * scalar) : bool :=
  PyStr.startswith (fst kv) key_root.

Definition strip_root (key_root : string) (kv : string * scalar)
    : string * scalar :=
  (PyStr.slice_from (String.length key_root) (fst kv), snd kv).

(** [list_items.get(k, [])] *)
Definition items_get (list_items : items) (k : string) : list scalar :=
  match Dict.get list_items k with Some vs => vs | None => [] end.

(** A stand-in for [str] on a list, for inputs that nest no list directly
    in a list. *)
Definition str_list_unused : list json -> string := fun _ => "".

(** The value a mapping element holds under key [k], when it is a leaf. *)
Definition field (k : string) (e : json) : list scalar :=
  match e with
  | JDict d =>
      match Dict.get d k with
      | Some (JScalar s) => [s]
      | _ => []
      end
  | _ => []
  end.

(** The values of key [k] down a list of mappings, in element order. *)
Definition column (k : string) (l : list json) : list scalar :=
  flat_map (field k) l.

(** A mapping whose key set is exactly [{a, b}], both leaves. *)
Definition is_row (a b : string) (e : json) : Prop :=
  exists x y,
    e = JDict [(a, JScalar x); (b, JScalar y)] \/
    e = JDict [(b, JScalar y); (a, JScalar x)].

Definition is_dict (e : json) : bool :=
  match e with JDict _ => true | _ => false end.

(** Trees of mappings and leaves only. *)
Fixpoint list_free (t : json) : bool :=
  match t with
  | JScalar _ => true
  | JList _ => false
  | JDict d => forallb (fun kv => list_free (snd kv)) d
  end.

(** The leaves of a list-free tree in depth-first order, each with the
    mapping keys from the root down to it. *)
Fixpoint leaf_paths (t : json) : list (list string * scalar) :=
  match t with
  | JScalar s => [([], s)]
  | JList _ => []
  | JDict d =>
      flat_map
        (fun kv => map (fun leaf => (fst kv :: fst leaf, snd leaf))
                     (leaf_paths (snd kv)))
        d
  end.

(** The composite key of a path of mapping keys below [p]: [p + sep + k]
    at each step, [k] alone while [p] is empty. *)
Definition path_from (sep p : string) (ks : list string) : string :=
  fold_left (new_key sep) ks p.

Definition leaf_entries (sep p : string) (t : json) : flat :=
  map (fun leaf => (path_from sep p (fst leaf), snd leaf)) (leaf_paths t).

(** [flat_dict[k] = v] for each entry in turn. *)
Definition set_all (entries flat_dict : flat) : flat :=
  fold_left (fun fd kv => Dict.set fd (fst kv) (snd kv)) entries flat_dict.

(** ** The flattener over a store of mutable objects

    Python dictionaries and lists are objects reached through references;
    leaves are immutable.  The store holds the objects of the input and
    the [flat_dict] the call creates.  [list_items] and [flattened_dict]
    never leave the call and stay plain values. *)

Module Store.

Inductive val : Type :=
| VScalar (s : scalar)
| VRef (l : nat).

Inductive obj : Type :=
| ODict (d : Dict.t val)
| OList (l : list val).

Definition store := list obj.

Definition read (h : store) (l : nat) : option obj := nth_error h l.

Fixpoint write (h : store) (l : nat) (o : obj) : store :=
  match h, l with
  | [], _ => []
  | _ :: h', O => o :: h'
  | x :: h', S l' => x :: write h' l' o
  end.

(** A new object gets the next reference. *)
Definition alloc (h : store) (o : obj) : nat * store :=
  (List.length h, h ++ [o]).

Fixpoint all_some {A B : Type} (f : A -> option B) (l : list A)
    : option (list B) :=
  match l with
  | [] => Some []
  | a :: l' =>
      match f a, all_some f l' with
      | Some b, Some bs => Some (b :: bs)
      | _, _ => None
      end
  end.

(** The tree an input value stands for; [None] on a dangling reference or
    when the nesting is deeper than [fuel]. *)
Fixpoint reify (fuel : nat) (h : store) (v : val) : option json :=
  match v with
  | VScalar s => Some (JScalar s)
  | VRef l =>
      match fuel with
      | O => None
      | S fuel' =>
          match read h l with
          | Some (OList vs) => option_map JList (all_some (reify fuel' h) vs)
          | Some (ODict d) =>
              option_map JDict
                (all_some
                   (fun kv => option_map (pair (fst kv)) (reify fuel' h (snd kv)))
                   d)
          | None => None
          end
      end
  end.

(** A dictionary of leaves as an object, and back. *)
Definition of_flat (flat_dict : flat) : Dict.t val :=
  map (fun kv => (fst kv, VScalar (snd kv))) flat_dict.

Definition to_flat (d : Dict.t val) : option flat :=
  all_some
    (fun kv => match snd kv with
               | VScalar s => Some (fst kv, s)
               | VRef _ => None
               end)
    d.

(** [flat_dict[k] = v] *)
Definition setitem (flat_dict : nat) (k : string) (v : scalar) (h : store)
    : option store :=
  match read h flat_dict with
  | Some (ODict d) => Some (write h flat_dict (ODict (Dict.set d k (VScalar v))))
  | _ => None
  end.

(** [flat_dict.items()]; the flattener assigns only leaves to
    [flat_dict]. *)
Definition items_of (flat_dict : nat) (h : store) : option flat :=
  match read h flat_dict with
  | Some (ODict d) => to_flat d
  | _ => None
  end.

(** [for key, value in item.items(): body] *)
Fixpoint each_item (body : string -> val -> store -> option store)
    (d : Dict.t val) (h : store) : option store :=
  match d with
  | [] => Some h
  | (key, value) :: d' =>
      match body key value h with
      | Some h' => each_item body d' h'
      | None => None
      end
  end.

(** [for value in item: body] *)
Fixpoint each_value (body : store * items -> val -> option (store * items))
    (l : list val) (st : store * items) : option (store * items) :=
  match l with
  | [] => Some st
  | value :: l' =>
      match body st value with
      | Some st' => each_value body l' st'
      | None => None
      end
  end.

Section Traversal.
Variable str_list : list json -> string.
Variable sep : string.

(** The reference of the [flat_dict] of this call. *)
Variable flat_dict : nat.

Fixpoint emit (parent_key : string) (list_items : items) (h : store)
    : option store :=
  match list_items with
  | [] => Some h
  | (k, v) :: rest =>
      match setitem flat_dict (parent_key ++ sep ++ k) (joined v) h with
      | Some h' => emit parent_key rest h'
      | None => None
      end
  end.

(** The body of the loop over a list; [inner] is the recursive call and
    [fuel] bounds the reading of a nested list for [str]. *)
Definition value_step (fuel : nat) (inner : val -> store -> option store)
    (parent_key : string) (st : store * items) (value : val)
    : option (store * items) :=
  let '(h, list_items) := st in
  match value with
  | VScalar s =>
      Some (h, items_append list_items parent_key (SStr (str_scalar s)))
  | VRef l =>
      match read h l with
      | Some (ODict _) =>
          match inner value h with
          | Some h' =>
              match items_of flat_dict h' with
              | Some entries =>
                  Some (h',
                        collect (scan_prefix (parent_key ++ sep) entries [])
                          list_items)
              | None => None
              end
          | None => None
          end
      | Some (OList _) =>
          match reify fuel h value with
          | Some (JList inner_list) =>
              Some (h, items_append list_items parent_key
                         (SStr (str_list inner_list)))
          | _ => None
          end
      | None => None
      end
  end.

(** [_flatten_inner(item, parent_key)] on the store.  [isinstance] looks
    at the object behind the reference; a loop runs over the entries its
    object has when the loop starts; [fuel] bounds the nesting. *)
Fixpoint _flatten_inner (fuel : nat) (item : val) (parent_key : string)
    (h : store) : option store :=
  match item with
  | VScalar s => setitem flat_dict parent_key s h
  | VRef l =>
      match fuel with
      | O => None
      | S fuel' =>
          match read h l with
          | Some (ODict d) =>
              each_item
                (fun key value =>
                   _flatten_inner fuel' value (new_key sep parent_key key))
                d h
          | Some (OList vs) =>
              match each_value
                      (value_step fuel'
                         (fun value => _flatten_inner fuel' value parent_key)
                         parent_key)
                      vs (h, []) with
              | Some (h', list_items) => emit parent_key list_items h'
              | None => None
              end
          | None => None
          end
      end
  end.

End Traversal.

(** [_flatten_data(data, sep)]: [flat_dict = {}], the traversal, and
    [return flat_dict]. *)
Definition _flatten_data (str_list : list json -> string) (sep : string)
    (fuel : nat) (data : val) (h : store) : option (nat * store) :=
  let '(flat_dict, h) := alloc h (ODict []) in
  match _flatten_inner str_list sep flat_dict fuel data "" h with
  | Some h' => Some (flat_dict, h')
  | None => None
  end.

(** A store holding [{"type": [{"id": 1, "name": "A"}, {"id": 2, "name": "B"}]}]. *)
Definition example : store :=
  [ODict [("id", VScalar (SInt 1)); ("name", VScalar (SStr "A"))];
   ODict [("id", VScalar (SInt 2)); ("name", VScalar (SStr "B"))];
   OList [VRef 0; VRef 1];
   ODict [("type", VRef 2)]].

End Store.

(** ** Exceptions and Python's operations on decoded JSON *)

Inductive exn : Type :=
| KeyError
| IndexError
| TypeError
| AttributeError
| DownloadError (msg : string).

Inductive result (A : Type) : Type :=
| Ok (a : A)
| Raise (e : exn).

Arguments Ok {A} a.
Arguments Raise {A} e.

Definition bind_result {A B : Type} (r : result A) (k : A -> result B)
    : result B :=
  match r with
  | Ok a => k a
  | Raise e => Raise e
  end.

Declare Scope result_scope.
Delimit Scope result_scope with result.
Notation "x <- r ;; k" := (bind_result r (fun x => k))
  (at level 61, r at next level, right associativity) : result_scope.

(** A loop whose body may raise. *)
Fixpoint for_each {A B : Type} (body : A -> result B) (l : list A)
    : result (list B) :=
  match l with
  | [] => Ok []
  | a :: l' =>
      (b <- body a ;; bs <- for_each body l' ;; Ok (b :: bs))%result
  end.

Module Py.

(** [bool(x)] *)
Definition truthy (x : json) : bool :=
  match x with
  | JScalar SNone => false
  | JScalar (SBool b) => b
  | JScalar (SInt z) => negb (Z.eqb z 0)
  | JScalar (SFloat r) => negb (String.eqb r "0.0" || String.eqb r "-0.0")
  | JScalar (SStr s) => PyStr.truthy s
  | JList l => match l with [] => false | _ :: _ => true end
  | JDict d => match d with [] => false | _ :: _ => true end
  end.

(** [x[k]] for a string [k] *)
Definition getitem (x : json) (k : string) : result json :=
  match x with
  | JDict d =>
      match Dict.get d k with
      | Some v => Ok v
      | None => Raise KeyError
      end
  | _ => Raise TypeError
  end.

(** [x[0]] *)
Definition getitem0 (x : json) : result json :=
  match x with
  | JList [] => Raise IndexError
  | JList (v :: _) => Ok v
  | JDict _ => Raise KeyError
  | JScalar (SStr EmptyString) => Raise IndexError
  | JScalar (SStr (String c _)) => Ok (JScalar (SStr (String c EmptyString)))
  | JScalar _ => Raise TypeError
  end.

Fixpoint chars (s : string) : list json :=
  match s with
  | EmptyString => []
  | String c s' => JScalar (SStr (String c EmptyString)) :: chars s'
  end.

(** What [for v in x] ranges over. *)
Definition iter (x : json) : result (list json) :=
  match x with
  | JList l => Ok l
  | JDict d => Ok (map (fun k => JScalar (SStr k)) (Dict.keys d))
  | JScalar (SStr s) => Ok (chars s)
  | JScalar _ => Raise TypeError
  end.

(** [x.pop(k, None)], the value dropped *)
Definition pop_default (x : json) (k : string) : result json :=
  match x with
  | JDict d => Ok (JDict (Dict.pop d k))
  | JList _ => Raise TypeError
  | JScalar _ => Raise AttributeError
  end.

(** [list(x.keys())] *)
Definition keys (x : json) : result (list string) :=
  match x with
  | JDict d => Ok (Dict.keys d)
  | _ => Raise AttributeError
  end.

End Py.

(** The flat dictionary as a value among the decoded JSON. *)
Definition json_of_flat (flat_dict : flat) : json :=
  JDict (map (fun kv => (fst kv, JScalar (snd kv))) flat_dict).

(** ** [_format_data] *)

Section FormatData.
Variable str_list : list json -> string.

(** [d["fields"] = _flatten_data(d.pop("fields"))]: the key moves to the
    end of [d]. *)
Definition format_entry (d : json) : result json :=
  match d with
  | JDict kv =>
      match Dict.get kv "fields" with
      | Some fields =>
          Ok (JDict (Dict.set (Dict.pop kv "fields") "fields"
                       (json_of_flat (_flatten_data str_list "-" fields))))
      | None => Raise KeyError
      end
  | JList _ => Raise TypeError
  | JScalar _ => Raise AttributeError
  end.

(** [_format_data(data)].  The entries are updated in place, so a list
    under ["data"] holds the updated entries afterwards. *)
Definition _format_data (data : json) : result json :=
  (entries <- Py.getitem data "data" ;;
   ds <- Py.iter entries ;;
   ds' <- for_each format_entry ds ;;
   Ok (match data, entries with
       | JDict kv, JList _ => JDict (Dict.set kv "data" (JList ds'))
       | _, _ => data
       end))%result.

(** The keys dropped from every row. *)
Definition remove_keys : list string :=
  ["uuid"; "type-primary"; "country-primary"; "profile-overview";
   "profile-overview-html"].

(** [for key in remove_keys: disaster_fields.pop(key, None)] *)
Fixpoint pop_all (keys : list string) (disaster_fields : json) : result json :=
  match keys with
  | [] => Ok disaster_fields
  | key :: keys' =>
      (disaster_fields <- Py.pop_default disaster_fields key ;;
       pop_all keys' disaster_fields)%result
  end.

(** Lines 73 to 85 of [scrape_data]: from a detail body to its row. *)
Definition format_row (disaster_data : json) : result json :=
  (flat_data <- _format_data disaster_data ;;
   data <- Py.getitem flat_data "data" ;;
   first <- Py.getitem0 data ;;
   disaster_fields <- Py.getitem first "fields" ;;
   pop_all remove_keys disaster_fields)%result.

End FormatData.

(** [data["data"][0]["fields"]] of a detail body as fetched. *)
Definition detail_fields (disaster_data : json) : result json :=
  (data <- Py.getitem disaster_data "data" ;;
   first <- Py.getitem0 data ;;
   Py.getitem first "fields")%result.

(** ** The fetch pipeline *)

(** What a call of the retriever's [download_json] does: return the
    decoded body, or raise an exception whose text is [msg]. *)
Inductive fetch : Type :=
| Returned (body : json)
| Raised (msg : string).

(** The calls of the logger. *)
Inductive log_event : Type :=
| InfoScraping
| Info404 (name : json) (e : string)
| ErrorDownloading (name : json) (e : string)
| InfoNoData (name : json)
| InfoCreating (title : string).

Record configuration : Type := {
  base_url : string;
  fixed_tags : json;
  hxl_tags : json
}.

Section Pipeline.
(** The retriever, with whatever state it keeps between calls. *)
Variable R : Type.
Variable download_json : json -> R -> fetch * R.
Variable str_list : list json -> string.
Variable config : configuration.

Record world : Type := {
  retriever : R;
  logged : list log_event
}.

(** Computations that call the retriever and the logger and may raise. *)
Definition M (A : Type) : Type := world -> result A * world.

Definition ret {A : Type} (a : A) : M A := fun w => (Ok a, w).

Definition bind {A B : Type} (m : M A) (k : A -> M B) : M B :=
  fun w =>
    match m w with
    | (Ok a, w') => k a w'
    | (Raise e, w') => (Raise e, w')
    end.

Definition lift {A : Type} (r : result A) : M A := fun w => (r, w).

Definition logger (ev : log_event) : M unit :=
  fun w => (Ok tt, {| retriever := retriever w; logged := logged w ++ [ev] |}).

(** [self._retriever.download_json(url)] inside [try]: the outcome is
    handed to the caller. *)
Definition try_download (url : json) : M fetch :=
  fun w =>
    let '(r, st) := download_json url (retriever w) in
    (Ok r, {| retriever := st; logged := logged w |}).

(** The same call outside [try]: an exception propagates. *)
Definition download (url : json) : M json :=
  bind (try_download url)
    (fun r =>
       match r with
       | Returned body => ret body
       | Raised msg => lift (Raise (DownloadError msg))
       end).

Local Notation "x <- m ;; k" := (bind m (fun x => k))
  (at level 61, m at next level, right associativity).
Local Notation "m ;; k" := (bind m (fun _ => k))
  (at level 61, right associativity).

Definition _APP_NAME : string := "vocabulary".
Definition _DATE_FIELD : string := "date-event".
Definition _FILENAME : string := "reliefweb-disasters-list.csv".
Definition _LIMIT : Z := 1000.
Definition _LOCATION : string := "world".
Definition _PRESET : string := "external".

(** [disaster['fields']['name']] *)
Definition disaster_name (disaster : json) : result json :=
  (fields <- Py.getitem disaster "fields" ;; Py.getitem fields "name")%result.

(** One round of the loop of [scrape_data]; [continue] returns the list
    as it is. *)
Definition scrape_item (disasters_list : list json) (disaster : json)
    : M (list json) :=
  disaster_url <- lift (Py.getitem disaster "href") ;;
  r <- try_download disaster_url ;;
  match r with
  | Raised e =>
      name <- lift (disaster_name disaster) ;;
      (if PyStr.contains "404" e
       then logger (Info404 name e)
       else logger (ErrorDownloading name e)) ;;
      ret disasters_list
  | Returned disaster_data =>
      if negb (Py.truthy disaster_data) then
        name <- lift (disaster_name disaster) ;;
        logger (InfoNoData name) ;;
        ret disasters_list
      else
        disaster_fields <- lift (format_row str_list disaster_data) ;;
        ret (disasters_list ++ [disaster_fields])
  end.

Fixpoint scrape_loop (disaster_list : list json) (disasters_list : list json)
    : M (list json) :=
  match disaster_list with
  | [] => ret disasters_list
  | disaster :: rest =>
      disasters_list <- scrape_item disasters_list disaster ;;
      scrape_loop rest disasters_list
  end.

Definition data_url : string :=
  (base_url config ++ "?appname=" ++ _APP_NAME ++ "&preset=" ++ _PRESET
   ++ "&limit=" ++ PyStr.of_Z _LIMIT)%string.

(** [ReliefWeb.scrape_data] *)
Definition scrape_data : M (list json) :=
  logger InfoScraping ;;
  data <- download (JScalar (SStr data_url)) ;;
  disaster_list <- lift (Py.getitem data "data") ;;
  disaster_list <- lift (Py.iter disaster_list) ;;
  scrape_loop disaster_list [].

(** The arguments handed to [Dataset.generate_resource_from_iterable]. *)
Record resource_call : Type := {
  headers : list string;
  iterable : list json;
  hxltags : json;
  folder : string;
  filename : string;
  resourcedata : list (string * string);
  datecol : string
}.

Record dataset : Type := {
  name : string;
  title : string;
  location : string;
  tags : json;
  resource : resource_call
}.

Variable temp_dir : string.

(** [Dataset.generate_resource_from_iterable] of the HDX library: it reads
    the rows and writes the file, and may raise; what it returns is
    dropped. *)
Variable generate_resource_from_iterable : resource_call -> result unit.

(** [disaster_list[0]] *)
Definition first_row (disaster_list : list json) : result json :=
  match disaster_list with
  | [] => Raise IndexError
  | row :: _ => Ok row
  end.

(** [ReliefWeb.generate_dataset]; [slugify] of the title is
    ["reliefweb-disasters-list"].  The record returned keeps what was
    handed to the library's [Dataset] object: the name and title it is
    made with, the location and the tags added, and the arguments of
    [generate_resource_from_iterable], whose first argument is evaluated
    before the call is made.  The calls that make the object and add the
    location and the tags receive constants and are taken to return. *)
Definition generate_dataset (disaster_list : list json) : M dataset :=
  let title := "ReliefWeb Disasters List" in
  let slugified_name := "reliefweb-disasters-list" in
  logger (InfoCreating title) ;;
  first <- lift (first_row disaster_list) ;;
  columns <- lift (Py.keys first) ;;
  let call :=
    {| headers := columns;
       iterable := disaster_list;
       hxltags := hxl_tags config;
       folder := temp_dir;
       filename := _FILENAME;
       resourcedata :=
         [("name", _FILENAME);
          ("description",
           "CSV with HXL tags of ongoing and past disasters covered by ReliefWeb")];
       datecol := _DATE_FIELD |} in
  lift (generate_resource_from_iterable call) ;;
  ret {| name := slugified_name;
         title := title;
         location := _LOCATION;
         tags := fixed_tags config;
         resource := call |}.

(** [main]: scrape, then generate. *)
Definition scrape_and_generate : M dataset :=
  disaster_list <- scrape_data ;;
  generate_dataset disaster_list.

End Pipeline.

(** The entries that survive the removal of [keys]. *)
Definition kept (keys : list string) (kv : string * scalar) : bool :=
  negb (existsb (String.eqb (fst kv)) keys).

(** The shapes of section 6 of the specification. *)
Definition has_fields (e : json) : bool :=
  match e with
  | JDict d => Dict.mem d "fields"
  | _ => false
  end.

Definition detail_shaped (body : json) : bool :=
  match body with
  | JDict kv =>
      match Dict.get kv "data" with
      | Some (JList (e :: es)) => forallb has_fields (e :: es)
      | _ => false
      end
  | _ => false
  end.

Definition item_shaped (disaster : json) : bool :=
  match disaster with
  | JDict kv =>
      Dict.mem kv "href" &&
      match Dict.get kv "fields" with
      | Some (JDict f) => Dict.mem f "name"
      | _ => false
      end
  | _ => false
  end.

(** ** A retriever over a fixed set of responses *)

Module Fixture.

Definition config : configuration := {|
  base_url := "https://api.reliefweb.int/v1/disasters";
  fixed_tags := JList [JScalar (SStr "climate hazards"); JScalar (SStr "drought")];
  hxl_tags := JDict [("id", JScalar (SStr "#event+id"));
                     ("name", JScalar (SStr "#event+name"))]
|}.

Definition item (id name : string) : json :=
  JDict [("id", JScalar (SStr id));
         ("score", JScalar (SInt 1));
         ("fields", JDict [("name", JScalar (SStr name))]);
         ("href", JScalar (SStr ("https://api.reliefweb.int/v1/disasters/" ++ id)))].

Definition listing : json :=
  JDict [("data",
          JList [item "52092" "Sudan: Floods - Jul 2024";
                 item "1" "withdrawn";
                 item "2" "unreachable";
                 item "3" "blank"])].

Definition detail : json :=
  JDict [("data",
          JList [JDict [("id", JScalar (SStr "52092"));
                        ("fields",
                         JDict [("id", JScalar (SInt 52092));
                                ("uuid", JScalar (SStr "9b380090"));
                                ("name", JScalar (SStr "Sudan: Floods - Jul 2024"));
                                ("primary_type",
                                 JDict [("id", JScalar (SInt 4611));
                                        ("code", JScalar (SStr "FL"))]);
                                ("type",
                                 JList [JDict [("id", JScalar (SInt 4624));
                                               ("code", JScalar (SStr "FF"))];
                                        JDict [("id", JScalar (SInt 4611));
                                               ("code", JScalar (SStr "FL"));
                                               ("primary", JScalar (SBool true))]])])]])].

(** The state counts the calls made. *)
Definition download_json (url : json) (calls : nat) : fetch * nat :=
  (match url with
   | JScalar (SStr u) =>
       if String.eqb u (data_url config) then Returned listing
       else if String.eqb u "https://api.reliefweb.int/v1/disasters/52092"
       then Returned detail
       else if String.eqb u "https://api.reliefweb.int/v1/disasters/2"
       then Raised "503 Server Error: Service Unavailable"
       else if String.eqb u "https://api.reliefweb.int/v1/disasters/3"
       then Returned (JScalar SNone)
       else Raised "404 Client Error: Not Found"
   | _ => Raised "Invalid URL"
   end, S calls).

(** A retriever that answers every detail request with a body that has
    no entry under ["data"]. *)
Definition download_unshaped (url : json) (calls : nat) : fetch * nat :=
  (match url with
   | JScalar (SStr u) =>
       if String.eqb u (data_url config) then Returned listing
       else Returned (JDict [("data", JList [])])
   | _ => Raised "Invalid URL"
   end, S calls).

(** A retriever whose listing is empty. *)
Definition download_nothing (url : json) (calls : nat) : fetch * nat :=
  (Returned (JDict [("data", JList [])]), S calls).

(** A listing whose first item has no name under ["fields"]. *)
Definition unnamed : json :=
  JDict [("id", JScalar (SStr "7"));
         ("score", JScalar (SInt 1));
         ("fields", JDict []);
         ("href", JScalar (SStr "https://api.reliefweb.int/v1/disasters/7"))].

Definition unnamed_listing : json :=
  JDict [("data", JList [unnamed; item "52092" "Sudan: Floods - Jul 2024"])].

Definition download_unnamed (url : json) (calls : nat) : fetch * nat :=
  (match url with
   | JScalar (SStr u) =>
       if String.eqb u (data_url config) then Returned unnamed_listing
       else if String.eqb u "https://api.reliefweb.int/v1/disasters/52092"
       then Returned detail
       else Raised "404 Client Error: Not Found"
   | _ => Raised "Invalid URL"
   end, S calls).

(** A stand-in for the library call: it reads the date column of every
    row, and raises [KeyError] at a row without it. *)
Definition generate_resource_from_iterable (call : resource_call)
    : result unit :=
  (_ <- for_each (fun row => Py.getitem row (datecol call)) (iterable call) ;;
   Ok tt)%result.

Definition start : world nat := {| retriever := 0; logged := [] |}.

End Fixture.

(** ** Lists of mappings in general *)

(** A list element that is a mapping without lists inside. *)
Definition leaf_mapping (e : json) : bool := is_dict e && list_free e.

(** The leaves of a list element under their sub-keys: the keys on the way
    to the leaf, joined. *)
Definition sub_entries (sep : string) (e : json) : flat :=
  map (fun leaf => (String.concat sep (fst leaf), snd leaf)) (leaf_paths e).

(** The value an element holds under a sub-key; the last one when two
    leaves of the element share the sub-key. *)
Definition sub_value (sep k : string) (e : json) : option scalar :=
  Dict.get (rev (sub_entries sep e)) k.

(** The values collected for sub-key [k] along a list: from the first
    element that holds [k] on, each element gives its own value or, when
    it has none, the value last seen.  [last] is what the accumulator
    holds for the key when the list is met. *)
Fixpoint carry (sep k : string) (last : option scalar) (l : list json)
    : list scalar :=
  match l with
  | [] => []
  | e :: l' =>
      let last :=
        match sub_value sep k e with
        | Some v => Some v
        | None => last
        end in
      match last with
      | Some v => v :: carry sep k last l'
      | None => carry sep k None l'
      end
  end.

(** The values of sub-key [k] of the elements that hold it. *)
Definition sub_column (sep k : string) (l : list json) : list scalar :=
  flat_map
    (fun e => match sub_value sep k e with Some v => [v] | None => [] end) l.

(** ** Observing a run *)

(** The rows an item contributes when the answer to a request depends on
    the request alone: the row of its body when the fetch returns a
    non-empty body, nothing otherwise. *)
Definition survivor (str_list : list json -> string) (answer : json -> fetch)
    (disaster : json) : list json :=
  match Py.getitem disaster "href" with
  | Ok url =>
      match answer url with
      | Returned body =>
          if Py.truthy body
          then match format_row str_list body with
               | Ok row => [row]
               | Raise _ => []
               end
          else []
      | Raised _ => []
      end
  | Raise _ => []
  end.

(** The log entry an item leaves when the answer to a request depends on
    the request alone: one entry when its fetch raises or returns an
    empty body, none when it gives a row. *)
Definition skip_event (answer : json -> fetch) (disaster : json)
    : list log_event :=
  match Py.getitem disaster "href", disaster_name disaster with
  | Ok url, Ok name =>
      match answer url with
      | Raised msg =>
          [if PyStr.contains "404" msg
           then Info404 name msg
           else ErrorDownloading name msg]
      | Returned body =>
          if Py.truthy body then [] else [InfoNoData name]
      end
  | _, _ => []
  end.

(** A retriever that also records the requests it receives, in order. *)
Definition tracing {R : Type} (download_json : json -> R -> fetch * R)
    (url : json) (st : R * list json) : fetch * (R * list json) :=
  let '(r, st') := download_json url (fst st) in
  (r, (st', snd st ++ [url])).

(** The answers the retriever gives along the loop of [scrape_data]: it
    is asked for the ["href"] of each item in turn, from state [st] on. *)
Fixpoint answers {R : Type} (download_json : json -> R -> fetch * R)
    (disaster_list : list json) (st : R) : list fetch :=
  match disaster_list with
  | [] => []
  | disaster :: rest =>
      match Py.getitem disaster "href" with
      | Ok url =>
          let '(r, st') := download_json url st in
          r :: answers download_json rest st'
      | Raise _ => []
      end
  end.

(** The three ways the fetch of an item fails: it raises with ["404"] in
    the text, it raises otherwise, or it returns an empty body. *)
Definition not_found (r : fetch) : bool :=
  match r with
  | Raised msg => PyStr.contains "404" msg
  | Returned _ => false
  end.

Definition fetch_error (r : fetch) : bool :=
  match r with
  | Raised msg => negb (PyStr.contains "404" msg)
  | Returned _ => false
  end.

Definition empty_body (r : fetch) : bool :=
  match r with
  | Returned body => negb (Py.truthy body)
  | Raised _ => false
  end.

Definition failed (r : fetch) : bool :=
  not_found r || fetch_error r || empty_body r.

(** The log entry of an item whose fetch failed. *)
Definition skip_entry (name : json) (r : fetch) : log_event :=
  match r with
  | Raised msg =>
      if PyStr.contains "404" msg
      then Info404 name msg
      else ErrorDownloading name msg
  | Returned _ => InfoNoData name
  end.

(** An answer whose body, when there is one and it is not empty, has the
    shape of section 6 of the specification. *)
Definition shaped_answer (r : fetch) : bool :=
  match r with
  | Returned body => negb (Py.truthy body) || detail_shaped body
  | Raised _ => true
  end.

(** ** Decoded documents in the store *)

(** What decoding a document builds: one new object for every list and
    every dictionary of the tree, children first. *)
Module Loader.

Section Each.
Variable A : Type.
Variable load_one : A -> Store.store -> Store.val * Store.store.

Fixpoint load_each (l : list A) (h : Store.store)
    : list Store.val * Store.store :=
  match l with
  | [] => ([], h)
  | x :: l' =>
      let '(v, h1) := load_one x h in
      let '(vs, h2) := load_each l' h1 in
      (v :: vs, h2)
  end.
End Each.

Fixpoint load (t : json) (h : Store.store) : Store.val * Store.store :=
  match t with
  | JScalar s => (Store.VScalar s, h)
  | JList l =>
      let '(vs, h1) := load_each load l h in
      (Store.VRef (List.length h1), h1 ++ [Store.OList vs])
  | JDict d =>
      let '(vs, h1) := load_each (fun kv => load (snd kv)) d h in
      (Store.VRef (List.length h1),
       h1 ++ [Store.ODict (combine (map fst d) vs)])
  end.

(** How deep the lists and dictionaries of a tree nest. *)
Fixpoint depth (t : json) : nat :=
  match t with
  | JScalar _ => 0
  | JList l => S (fold_right (fun x => Nat.max (depth x)) 0 l)
  | JDict d => S (fold_right (fun kv => Nat.max (depth (snd kv))) 0 d)
  end.

End Loader.

(** Loading [x] adds objects to the store, and the value returned stands
    for the tree of [x] in every later store, with fuel for its depth. *)
Definition loads_well (A : Type)
    (load_one : A -> Store.store -> Store.val * Store.store)
    (tree : A -> json) (x : A) : Prop :=
  forall h,
    (exists ext, snd (load_one x h) = h ++ ext) /\
    (forall ext m,
        Loader.depth (tree x) <= m ->
        Store.reify m (snd (load_one x h) ++ ext) (fst (load_one x h))
        = Some (tree x)).

(** * Properties *)

(** ** Strings *)

Section StringFacts.
Implicit Types (p s t : string).

Lemma app_assoc_s p s t : ((p ++ s) ++ t = p ++ s ++ t)%string.
Proof. induction p; simpl; congruence. Qed.

Lemma app_inj_l p s t : (p ++ s = p ++ t)%string -> s = t.
Proof. induction p; simpl; intros H; [assumption|]. injection H as H. auto. Qed.

Lemma startswith_app p t : PyStr.startswith (p ++ t) p = true.
Proof.
  unfold PyStr.startswith. induction p as [|a p IH]; simpl; [now destruct t|].
  destruct (ascii_dec a a); [assumption|congruence].
Qed.

Lemma slice_from_app p t : PyStr.slice_from (String.length p) (p ++ t) = t.
Proof. induction p; simpl; [now destruct t|assumption]. Qed.

Lemma startswith_inv s p :
  PyStr.startswith s p = true ->
  s = (p ++ PyStr.slice_from (String.length p) s)%string.
Proof.
  unfold PyStr.startswith. revert s.
  induction p as [|a p IH]; intros s; simpl.
  - now destruct s.
  - destruct s as [|b s]; simpl; [intros H; discriminate H|].
    destruct (ascii_dec a b) as [->|]; intros H; [|discriminate H].
    f_equal. auto.
Qed.

End StringFacts.

Section FlattenFacts.
Variable str_list : list json -> string.
Variable sep : string.

Lemma flatten_inner_dict (d : list (string * json)) parent_key flat_dict :
  _flatten_inner str_list sep (JDict d) parent_key flat_dict
  = each_item str_list sep parent_key d flat_dict.
Proof.
  unfold each_item. revert flat_dict.
  induction d as [|[key value] d IH]; intros flat_dict; [reflexivity|].
  simpl fold_left. rewrite <- IH. reflexivity.
Qed.

Lemma flatten_inner_list (l : list json) parent_key flat_dict :
  _flatten_inner str_list sep (JList l) parent_key flat_dict
  = emit sep parent_key
      (snd (each_value str_list sep parent_key l (flat_dict, [])))
      (fst (each_value str_list sep parent_key l (flat_dict, []))).
Proof.
  unfold each_value. cbn [_flatten_inner].
  generalize (@nil (string * list scalar)) as list_items. revert flat_dict.
  induction l as [|value l IH]; intros flat_dict list_items; [reflexivity|].
  simpl fold_left. destruct value as [s|inner|d]; cbn [value_step];
    rewrite <- IH; reflexivity.
Qed.

End FlattenFacts.


(** ** Dictionaries *)

Section DictFacts.
Variable V : Type.
Implicit Types (d : Dict.t V) (k : string) (v : V).

Lemma get_set_same d k v : Dict.get (Dict.set d k v) k = Some v.
Proof.
  induction d as [|[k' v'] d IH]; simpl.
  - now rewrite String.eqb_refl.
  - destruct (String.eqb k' k) eqn:E; simpl; rewrite E; auto.
Qed.

Lemma get_set_other d k k' v :
  k <> k' -> Dict.get (Dict.set d k v) k' = Dict.get d k'.
Proof.
  intros Hne. induction d as [|[k0 v0] d IH]; simpl.
  - destruct (String.eqb k k') eqn:E; [apply String.eqb_eq in E; tauto|reflexivity].
  - destruct (String.eqb k0 k) eqn:E; simpl.
    + apply String.eqb_eq in E; subst k0.
      destruct (String.eqb k k') eqn:E'; [apply String.eqb_eq in E'; tauto|reflexivity].
    + now rewrite IH.
Qed.

Lemma get_set d k k' v :
  Dict.get (Dict.set d k v) k'
  = if String.eqb k k' then Some v else Dict.get d k'.
Proof.
  destruct (String.eqb k k') eqn:E.
  - apply String.eqb_eq in E; subst. apply get_set_same.
  - apply String.eqb_neq in E. now apply get_set_other.
Qed.

Lemma get_None_keys d k : Dict.get d k = None <-> ~ In k (Dict.keys d).
Proof.
  induction d as [|[k' v'] d IH]; simpl; [tauto|].
  destruct (String.eqb k' k) eqn:E.
  - apply String.eqb_eq in E; subst. split; [discriminate|tauto].
  - apply String.eqb_neq in E. rewrite IH. tauto.
Qed.

Lemma get_Some_keys d k v : Dict.get d k = Some v -> In k (Dict.keys d).
Proof.
  intros H. destruct (in_dec string_dec k (Dict.keys d)) as [|Hn]; [assumption|].
  apply get_None_keys in Hn. congruence.
Qed.

Lemma mem_keys d k : Dict.mem d k = true <-> In k (Dict.keys d).
Proof.
  unfold Dict.mem. destruct (Dict.get d k) eqn:E.
  - split; [intros _; eapply get_Some_keys; eassumption|reflexivity].
  - split; [discriminate|]. apply get_None_keys in E. tauto.
Qed.

(** Assignment to a present key keeps the key order. *)
Lemma keys_set_present d k v :
  In k (Dict.keys d) -> Dict.keys (Dict.set d k v) = Dict.keys d.
Proof.
  induction d as [|[k' v'] d IH]; simpl; [tauto|].
  destruct (String.eqb k' k) eqn:E; [reflexivity|].
  apply String.eqb_neq in E. intros [H|H]; [contradiction|].
  simpl. now rewrite IH.
Qed.

(** Assignment to a new key appends it. *)
Lemma set_absent d k v :
  ~ In k (Dict.keys d) -> Dict.set d k v = d ++ [(k, v)].
Proof.
  induction d as [|[k' v'] d IH]; simpl; [reflexivity|].
  intros H. destruct (String.eqb k' k) eqn:E.
  - apply String.eqb_eq in E. tauto.
  - rewrite IH; tauto.
Qed.

Lemma keys_set d k v :
  Dict.keys (Dict.set d k v)
  = if Dict.mem d k then Dict.keys d else Dict.keys d ++ [k].
Proof.
  destruct (Dict.mem d k) eqn:E.
  - apply keys_set_present. now apply mem_keys.
  - rewrite set_absent.
    + unfold Dict.keys. now rewrite map_app.
    + rewrite <- mem_keys. congruence.
Qed.

Lemma wf_set d k v : Dict.wf d -> Dict.wf (Dict.set d k v).
Proof.
  unfold Dict.wf. rewrite keys_set. destruct (Dict.mem d k) eqn:E; [tauto|].
  intros H. apply NoDup_app; [assumption|repeat constructor; simpl; tauto|].
  intros x Hx [<-|[]]. apply mem_keys in Hx. congruence.
Qed.

Lemma wf_nil : Dict.wf (@nil (string * V)).
Proof. constructor. Qed.

End DictFacts.

(** ** The accumulators of the list branch *)

Section AccumulatorFacts.
Variable sep : string.
Implicit Types (flat_dict fd acc : flat) (list_items li : items).
Implicit Types (key_root k p : string).

Lemma wf_scan_prefix key_root fd acc :
  Dict.wf acc -> Dict.wf (scan_prefix key_root fd acc).
Proof.
  revert acc. induction fd as [|[k v] fd IH]; intros acc Hacc; simpl; [assumption|].
  apply IH. destruct (PyStr.startswith k key_root); [now apply wf_set|assumption].
Qed.

(** On a dictionary the scan is a filter followed by a renaming. *)
Lemma scan_prefix_app key_root fd acc :
  Dict.wf fd ->
  (forall kv, In kv fd -> has_root key_root kv = true ->
              ~ In (fst (strip_root key_root kv)) (Dict.keys acc)) ->
  scan_prefix key_root fd acc
  = acc ++ map (strip_root key_root) (filter (has_root key_root) fd).
Proof.
  revert acc. induction fd as [|[k v] fd IH]; intros acc Hwf Hfresh; simpl.
  - now rewrite app_nil_r.
  - inversion Hwf as [|? ? Hk Hwf']; subst.
    unfold has_root at 1. simpl fst.
    destruct (PyStr.startswith k key_root) eqn:E.
    + rewrite set_absent by (apply (Hfresh (k, v)); [now left|exact E]).
      rewrite IH; [now rewrite <- app_assoc| assumption |].
      intros [k' v'] Hin Hroot. unfold Dict.keys. rewrite map_app, in_app_iff.
      intros [Hold|[Heq|[]]].
      * apply (Hfresh (k', v')); [now right|assumption|assumption].
      * simpl in Heq. apply Hk.
        apply startswith_inv in E. apply startswith_inv in Hroot.
        simpl in Hroot. rewrite E, Heq, <- Hroot.
        change k' with (fst (k', v')). now apply in_map.
    + apply IH; [assumption|]. intros kv Hin. apply Hfresh. now right.
Qed.

Lemma scan_prefix_nil key_root fd :
  Dict.wf fd ->
  scan_prefix key_root fd []
  = map (strip_root key_root) (filter (has_root key_root) fd).
Proof. intros H. rewrite scan_prefix_app; auto. Qed.

(** The scan reads every entry of [flat_dict] under the prefix, whichever
    call wrote it. *)
Lemma get_scan_prefix key_root fd k :
  Dict.wf fd ->
  Dict.get (scan_prefix key_root fd []) k
  = Dict.get fd (key_root ++ k)%string.
Proof.
  intros Hwf. rewrite scan_prefix_nil by assumption. clear Hwf.
  induction fd as [|[k0 v0] fd IH]; simpl; [reflexivity|].
  unfold has_root at 1. simpl fst.
  destruct (PyStr.startswith k0 key_root) eqn:E; simpl.
  - rewrite IH. apply startswith_inv in E.
    destruct (String.eqb_spec (PyStr.slice_from (String.length key_root) k0) k)
      as [Hs|Hs].
    + subst k. rewrite <- E. now rewrite String.eqb_refl.
    + destruct (String.eqb_spec k0 (key_root ++ k)%string) as [Hk|Hk];
        [|reflexivity].
      exfalso. apply Hs. rewrite Hk. apply slice_from_app.
  - rewrite IH.
    destruct (String.eqb_spec k0 (key_root ++ k)%string) as [Hk|Hk];
      [|reflexivity].
    subst k0. now rewrite startswith_app in E.
Qed.

Lemma get_items_append li k k' v :
  Dict.get (items_append li k v) k'
  = if String.eqb k k' then Some (items_get li k ++ [v]) else Dict.get li k'.
Proof.
  unfold items_append, items_get, Dict.mem.
  destruct (Dict.get li k) as [vs|] eqn:E.
  - rewrite E, get_set. reflexivity.
  - rewrite get_set_same, !get_set.
    destruct (String.eqb k k'); reflexivity.
Qed.

Lemma wf_items_append li k v :
  Dict.wf li -> Dict.wf (items_append li k v).
Proof.
  intros H. unfold items_append.
  destruct (Dict.mem li k);
    match goal with |- context [Dict.get ?d k] => destruct (Dict.get d k) end;
    auto using wf_set.
Qed.

Lemma wf_collect fl li : Dict.wf li -> Dict.wf (collect fl li).
Proof.
  revert li. induction fl as [|[k v] fl IH]; intros li H; simpl; [assumption|].
  apply IH. now apply wf_items_append.
Qed.

Lemma get_collect (fl : flat) li k :
  Dict.wf fl ->
  Dict.get (collect fl li) k
  = match Dict.get fl k with
    | Some v => Some (items_get li k ++ [v])
    | None => Dict.get li k
    end.
Proof.
  revert li. induction fl as [|[k0 v0] fl IH]; intros li Hwf; simpl; [reflexivity|].
  inversion Hwf as [|? ? Hk Hwf']; subst.
  rewrite IH by assumption. unfold items_get at 1.
  rewrite get_items_append.
  destruct (String.eqb_spec k0 k) as [->|Hne].
  - apply get_None_keys in Hk. now rewrite Hk.
  - reflexivity.
Qed.

(** One dictionary element of a list: every key of [flat_dict] under the
    prefix gains one value in [list_items]. *)
Lemma get_collect_scan key_root fd li k :
  Dict.wf fd ->
  Dict.get (collect (scan_prefix key_root fd []) li) k
  = match Dict.get fd (key_root ++ k)%string with
    | Some v => Some (items_get li k ++ [v])
    | None => Dict.get li k
    end.
Proof.
  intros Hwf. rewrite get_collect by (apply wf_scan_prefix, wf_nil).
  now rewrite get_scan_prefix.
Qed.

Lemma wf_emit p li fd : Dict.wf fd -> Dict.wf (emit sep p li fd).
Proof.
  revert fd. induction li as [|[k v] li IH]; intros fd H; simpl; [assumption|].
  apply IH. now apply wf_set.
Qed.

Lemma get_emit p li fd key :
  Dict.wf li ->
  Dict.get (emit sep p li fd) key
  = if PyStr.startswith key (p ++ sep)
    then match Dict.get li (PyStr.slice_from (String.length (p ++ sep)) key) with
         | Some vs => Some (joined vs)
         | None => Dict.get fd key
         end
    else Dict.get fd key.
Proof.
  revert fd. induction li as [|[k0 v0] li IH]; intros fd Hwf; simpl.
  - now destruct (PyStr.startswith key (p ++ sep)).
  - inversion Hwf as [|? ? Hk Hwf']; subst. rewrite IH by assumption.
    rewrite get_set. rewrite <- app_assoc_s.
    destruct (PyStr.startswith key (p ++ sep)) eqn:E.
    + apply startswith_inv in E.
      set (k := PyStr.slice_from (String.length (p ++ sep)) key) in *.
      destruct (String.eqb_spec k0 k) as [->|Hne].
      * apply get_None_keys in Hk. rewrite Hk, <- E.
        now rewrite String.eqb_refl.
      * destruct (Dict.get li k); [reflexivity|].
        destruct (String.eqb_spec ((p ++ sep) ++ k0)%string key) as [He|]; [|reflexivity].
        exfalso. apply Hne. rewrite E in He. now apply app_inj_l in He.
    + destruct (String.eqb_spec ((p ++ sep) ++ k0)%string key) as [He|]; [|reflexivity].
      subst key. now rewrite startswith_app in E.
Qed.

(** In particular [emit] writes [p ++ sep ++ k] for each collected [k]. *)
Lemma get_emit_sub p li fd k :
  Dict.wf li ->
  Dict.get (emit sep p li fd) (p ++ sep ++ k)%string
  = match Dict.get li k with
    | Some vs => Some (joined vs)
    | None => Dict.get fd (p ++ sep ++ k)%string
    end.
Proof.
  intros Hwf. rewrite get_emit by assumption. rewrite <- app_assoc_s.
  now rewrite startswith_app, slice_from_app.
Qed.

End AccumulatorFacts.

(** ** The flattener keeps [flat_dict] a dictionary *)

Section FlattenWf.
Variable str_list : list json -> string.
Variable sep : string.

Lemma wf_value_step_snd p st value :
  Dict.wf (snd st) -> Dict.wf (snd (value_step str_list sep p st value)).
Proof.
  destruct st as [fd li]. destruct value; simpl; intros H;
    auto using wf_items_append, wf_collect.
Qed.

Lemma wf_each_value_snd p l st :
  Dict.wf (snd st) -> Dict.wf (snd (each_value str_list sep p l st)).
Proof.
  unfold each_value. revert st.
  induction l as [|value l IH]; intros st H; simpl; [assumption|].
  apply IH. now apply wf_value_step_snd.
Qed.

Lemma wf_flatten_inner item : forall p fd,
  Dict.wf fd -> Dict.wf (_flatten_inner str_list sep item p fd).
Proof.
  induction item as [s|l IH|d IH] using json_ind; intros p fd Hwf.
  - simpl. now apply wf_set.
  - rewrite flatten_inner_list. apply wf_emit.
    unfold each_value. generalize (@nil (string * list scalar)) as li.
    revert fd Hwf. induction IH as [|value l Hv _ IHl]; intros fd Hwf li;
      cbn [fold_left]; [assumption|].
    destruct value; cbn [value_step]; apply IHl; auto.
  - rewrite flatten_inner_dict. unfold each_item. revert fd Hwf.
    induction IH as [|[key value] d Hv _ IHd]; intros fd Hwf; simpl;
      [assumption|].
    apply IHd. now apply Hv.
Qed.

Lemma wf_flatten_data data : Dict.wf (_flatten_data str_list sep data).
Proof. apply wf_flatten_inner, wf_nil. Qed.

End FlattenWf.

(** ** Lists of uniform two-key mappings *)

Section UniformRows.
Variable str_list : list json -> string.
Variable sep : string.
Variables p a b : string.
Hypothesis p_nonempty : p <> "".
Hypothesis a_b : a <> b.

Local Abbreviation pa := (p ++ sep ++ a)%string.
Local Abbreviation pb := (p ++ sep ++ b)%string.

Lemma pa_pb : pa <> pb.
Proof. intros H. apply app_inj_l, app_inj_l in H. contradiction. Qed.

Lemma new_key_nonempty k : new_key sep p k = (p ++ sep ++ k)%string.
Proof.
  unfold new_key. destruct (PyStr.truthy p) eqn:E; [reflexivity|].
  destruct p; [congruence|discriminate].
Qed.

Lemma is_row_sym e : is_row a b e -> is_row b a e.
Proof. intros (x & y & [H|H]); exists y, x; tauto. Qed.

Lemma row_fields e :
  is_row a b e -> exists x y, field a e = [x] /\ field b e = [y].
Proof.
  assert (Hab : String.eqb a b = false) by now apply String.eqb_neq.
  assert (Hba : String.eqb b a = false)
    by (apply String.eqb_neq; congruence).
  intros (x & y & [->| ->]); exists x, y; simpl;
    rewrite ?String.eqb_refl, ?Hab, ?Hba, ?String.eqb_refl; auto.
Qed.

(** Flattening one row writes its two leaves under [p-a] and [p-b]. *)
Lemma row_flatten e x y fd key :
  is_row a b e -> field a e = [x] -> field b e = [y] ->
  Dict.get (_flatten_inner str_list sep e p fd) key
  = if String.eqb pa key then Some x
    else if String.eqb pb key then Some y
    else Dict.get fd key.
Proof.
  assert (Hab : String.eqb a b = false) by now apply String.eqb_neq.
  assert (Hba : String.eqb b a = false)
    by (apply String.eqb_neq; congruence).
  pose proof pa_pb as Hne.
  intros (x' & y' & [->| ->]); simpl field;
    rewrite ?String.eqb_refl, ?Hab, ?Hba, ?String.eqb_refl;
    intros [= ->] [= ->]; cbn [_flatten_inner];
    rewrite !new_key_nonempty, !get_set;
    destruct (String.eqb_spec pa key), (String.eqb_spec pb key);
    congruence.
Qed.

Lemma row_is_dict e : is_row a b e -> is_dict e = true.
Proof. intros (x & y & [->| ->]); reflexivity. Qed.

Lemma value_step_dict st e :
  is_dict e = true ->
  value_step str_list sep p st e
  = (_flatten_inner str_list sep e p (fst st),
     collect
       (scan_prefix (p ++ sep) (_flatten_inner str_list sep e p (fst st)) [])
       (snd st)).
Proof. destruct st, e; simpl; intros; congruence. Qed.

(** The invariant of the loop over the rows, for the key [a]. *)
Lemma each_value_rows_a l : forall fd li,
  Forall (is_row a b) l -> Dict.wf fd -> l <> [] ->
  Dict.get (snd (each_value str_list sep p l (fd, li))) a
  = Some (items_get li a ++ column a l).
Proof.
  unfold each_value.
  induction l as [|e l IH]; intros fd li Hrows Hwf Hne; [congruence|].
  inversion Hrows as [|? ? He Hl]; subst.
  destruct (row_fields He) as (x & y & Hx & Hy).
  cbn [fold_left]. rewrite value_step_dict by now apply row_is_dict.
  cbn [fst snd].
  set (fd1 := _flatten_inner str_list sep e p fd).
  set (li1 := collect (scan_prefix (p ++ sep) fd1 []) li).
  assert (Hwf1 : Dict.wf fd1) by now apply wf_flatten_inner.
  assert (H1 : Dict.get li1 a = Some (items_get li a ++ [x])).
  { unfold li1. rewrite get_collect_scan by assumption.
    rewrite app_assoc_s. unfold fd1.
    rewrite (row_flatten fd _ He Hx Hy).
    now rewrite String.eqb_refl. }
  unfold column. cbn [flat_map]. fold (column a l). rewrite Hx.
  destruct l as [|e' l'].
  - simpl. now rewrite H1.
  - rewrite IH; [|assumption|assumption|discriminate].
    unfold items_get at 1. rewrite H1. now rewrite <- app_assoc.
Qed.

(** Starting from an accumulator that holds nothing but [p-a] and [p-b],
    the loop leaves nothing else in it. *)
Lemma each_value_rows_only l : forall fd li,
  Forall (is_row a b) l -> Dict.wf fd ->
  (forall key, key <> pa -> key <> pb -> Dict.get fd key = None) ->
  (forall k, k <> a -> k <> b -> Dict.get li k = None) ->
  (forall key, key <> pa -> key <> pb ->
     Dict.get (fst (each_value str_list sep p l (fd, li))) key = None) /\
  (forall k, k <> a -> k <> b ->
     Dict.get (snd (each_value str_list sep p l (fd, li))) k = None).
Proof.
  unfold each_value.
  induction l as [|e l IH]; intros fd li Hrows Hwf Hfd Hli; [now split|].
  inversion Hrows as [|? ? He Hl]; subst.
  destruct (row_fields He) as (x & y & Hx & Hy).
  cbn [fold_left]. rewrite value_step_dict by now apply row_is_dict.
  cbn [fst snd].
  set (fd1 := _flatten_inner str_list sep e p fd).
  assert (Hwf1 : Dict.wf fd1) by now apply wf_flatten_inner.
  assert (Hfd1 : forall key, key <> pa -> key <> pb -> Dict.get fd1 key = None).
  { intros key Ha Hb. unfold fd1. rewrite (row_flatten fd key He Hx Hy).
    destruct (String.eqb_spec pa key); [congruence|].
    destruct (String.eqb_spec pb key); [congruence|]. auto. }
  apply IH; try assumption.
  intros k Ha Hb. rewrite get_collect_scan by assumption.
  rewrite Hfd1; [now apply Hli| |]; rewrite app_assoc_s; intros H;
    apply app_inj_l, app_inj_l in H; contradiction.
Qed.

End UniformRows.

(** ** Claims about the list branch *)

(** C1.  A non-empty list of mappings that all have the key set [{a, b}]
    with leaf values, at a non-empty path [p]: each of [p-a] and [p-b] is
    mapped to the comma-join of one value per element, in element order,
    whatever the accumulator held before; flattening the record [{p: l}]
    gives exactly these two keys; and the literal scenario of the
    specification evaluates as stated. *)
Theorem flatten_uniform_rows :
  (forall (str_list : list json -> string) (sep p a b : string) (l : list json),
      p <> "" -> a <> b -> l <> [] -> Forall (is_row a b) l ->
      (Forall2 (fun e x => field a e = [x]) l (column a l) /\
       Forall2 (fun e y => field b e = [y]) l (column b l) /\
       List.length (column a l) = List.length l /\
       List.length (column b l) = List.length l) /\
      (forall fd, Dict.wf fd ->
         Dict.get (_flatten_inner str_list sep (JList l) p fd)
           (p ++ sep ++ a)%string = Some (joined (column a l)) /\
         Dict.get (_flatten_inner str_list sep (JList l) p fd)
           (p ++ sep ++ b)%string = Some (joined (column b l))) /\
      (Dict.wf (_flatten_data str_list sep (JDict [(p, JList l)])) /\
       forall key,
         Dict.get (_flatten_data str_list sep (JDict [(p, JList l)])) key
         = if String.eqb key (p ++ sep ++ a) then Some (joined (column a l))
           else if String.eqb key (p ++ sep ++ b) then Some (joined (column b l))
           else None)) /\
  (forall str_list,
      _flatten_data str_list "-"
        (JDict [("type",
                 JList [JDict [("id", JScalar (SInt 1)); ("name", JScalar (SStr "A"))];
                        JDict [("id", JScalar (SInt 2)); ("name", JScalar (SStr "B"))]])])
      = [("type-id", SStr "1, 2"); ("type-name", SStr "A, B")]).
Proof.
  split; [|reflexivity].
  intros str_list sep p a b l Hp Hab Hne Hrows.
  assert (Hba : b <> a) by congruence.
  assert (Hrows' : Forall (is_row b a) l).
  { eapply Forall_impl; [|exact Hrows]. intros e. apply is_row_sym. }
  assert (Hcols : Forall2 (fun e x => field a e = [x]) l (column a l) /\
                  Forall2 (fun e y => field b e = [y]) l (column b l)).
  { clear Hne Hrows'. induction Hrows as [|e l He _ IH]; [split; constructor|].
    destruct (row_fields Hab He) as (x & y & Hx & Hy). destruct IH as [IHa IHb].
    unfold column. cbn [flat_map]. rewrite Hx, Hy. split; now constructor. }
  assert (Hkeys : forall fd, Dict.wf fd ->
     Dict.get (_flatten_inner str_list sep (JList l) p fd)
       (p ++ sep ++ a)%string = Some (joined (column a l)) /\
     Dict.get (_flatten_inner str_list sep (JList l) p fd)
       (p ++ sep ++ b)%string = Some (joined (column b l))).
  { intros fd Hwf. rewrite flatten_inner_list.
    rewrite !get_emit_sub by (apply wf_each_value_snd, wf_nil).
    rewrite (each_value_rows_a str_list sep Hp Hab) by assumption.
    rewrite (each_value_rows_a str_list sep Hp Hba) by assumption.
    split; reflexivity. }
  split; [|split; [exact Hkeys|]].
  - destruct Hcols as [Ha Hb]. repeat split; try assumption.
    + symmetry. eapply Forall2_length; eassumption.
    + symmetry. eapply Forall2_length; eassumption.
  - split; [apply wf_flatten_data|]. intros key.
    assert (Htop : _flatten_data str_list sep (JDict [(p, JList l)])
                   = _flatten_inner str_list sep (JList l) p []) by reflexivity.
    rewrite Htop. destruct (Hkeys [] (wf_nil _)) as [Ha Hb].
    destruct (String.eqb_spec key (p ++ sep ++ a)%string) as [->|Hka]; [exact Ha|].
    destruct (String.eqb_spec key (p ++ sep ++ b)%string) as [->|Hkb]; [exact Hb|].
    rewrite flatten_inner_list.
    rewrite get_emit by (apply wf_each_value_snd, wf_nil).
    destruct (@each_value_rows_only str_list sep p a b Hp Hab l [] []
                Hrows (wf_nil _)) as [Hfd Hli]; [reflexivity|reflexivity|].
    destruct (PyStr.startswith key (p ++ sep)) eqn:E; [|now apply Hfd].
    apply startswith_inv in E. rewrite app_assoc_s in E.
    rewrite Hli; [now apply Hfd| |]; intros Hk; rewrite Hk in E; contradiction.
Qed.

(** The literal scenario, reached through the general statement. *)
Lemma flatten_uniform_rows_witness :
  let l := [JDict [("id", JScalar (SInt 1)); ("name", JScalar (SStr "A"))];
            JDict [("name", JScalar (SStr "B")); ("id", JScalar (SInt 2))]] in
  ("type" <> "" /\ "id" <> "name" /\ l <> [] /\ Forall (is_row "id" "name") l) /\
  Dict.get (_flatten_data str_list_unused "-" (JDict [("type", JList l)]))
    "type-name" = Some (SStr "A, B").
Proof.
  intros l.
  assert (H1 : "type" <> "") by discriminate.
  assert (H2 : "id" <> "name") by discriminate.
  assert (H3 : l <> []) by discriminate.
  assert (H4 : Forall (is_row "id" "name") l).
  { repeat constructor.
    - exists (SInt 1), (SStr "A"). now left.
    - exists (SInt 2), (SStr "B"). now right. }
  split; [repeat split; assumption|].
  exact (proj2 (proj2 (proj2 (proj1 flatten_uniform_rows str_list_unused "-"
                                "type" "id" "name" l H1 H2 H3 H4)))
           "type-name").
Defined.

(** C10.  On [{"p": [{"a": 1}, {"b": 2}]}] the value of [a] is collected
    twice: the scan after the second element reads the shared accumulator,
    which still holds the first element's [p-a]. *)
Theorem flatten_recollects_earlier_value :
  forall str_list,
    let first := JDict [("a", JScalar (SInt 1))] in
    let second := JDict [("b", JScalar (SInt 2))] in
    let flat_dict :=
      _flatten_inner str_list "-" second "p"
        (_flatten_inner str_list "-" first "p" []) in
    _flatten_data str_list "-" (JDict [("p", JList [first; second])])
    = [("p-a", SStr "1, 1"); ("p-b", SStr "2")] /\
    flat_dict = [("p-a", SInt 1); ("p-b", SInt 2)] /\
    scan_prefix "p-" flat_dict [] = [("a", SInt 1); ("b", SInt 2)].
Proof. intros str_list. repeat split. Qed.

(** C3.  An empty mapping in a list is not skipped: its round of the loop
    scans the shared accumulator and appends to [list_items], for every
    key under the prefix that is there, the value it has at that moment.
    After [{"a": 1}] this adds a second [1] to the join for [p-a]; the
    same list without the empty mapping gives a single [1]. *)
Theorem flatten_empty_mapping_recollects :
  (forall str_list sep p fd li k,
      Dict.wf fd ->
      value_step str_list sep p (fd, li) (JDict [])
      = (fd, collect (scan_prefix (p ++ sep) fd []) li) /\
      Dict.get (snd (value_step str_list sep p (fd, li) (JDict []))) k
      = match Dict.get fd (p ++ sep ++ k)%string with
        | Some v => Some (items_get li k ++ [v])
        | None => Dict.get li k
        end) /\
  (forall str_list,
      _flatten_data str_list "-"
        (JDict [("p", JList [JDict [("a", JScalar (SInt 1))]; JDict []])])
      = [("p-a", SStr "1, 1")] /\
      _flatten_data str_list "-"
        (JDict [("p", JList [JDict [("a", JScalar (SInt 1))]])])
      = [("p-a", SStr "1")] /\
      _flatten_data str_list "-"
        (JDict [("p", JList [JDict []; JDict [("a", JScalar (SInt 1))]])])
      = [("p-a", SStr "1")]).
Proof.
  split; [|intros str_list; repeat split].
  intros str_list sep p fd li k Hwf. split; [reflexivity|].
  cbn [value_step _flatten_inner snd].
  rewrite get_collect_scan by assumption. now rewrite app_assoc_s.
Qed.

Lemma flatten_empty_mapping_recollects_witness :
  let fd := [("p-a", SInt 1)] in
  let li := [("a", [SInt 1])] in
  Dict.wf fd /\
  value_step str_list_unused "-" "p" (fd, li) (JDict [])
  = (fd, collect (scan_prefix "p-" fd []) li) /\
  Dict.get (snd (value_step str_list_unused "-" "p" (fd, li) (JDict []))) "a"
  = Some [SInt 1; SInt 1].
Proof.
  intros fd li.
  assert (H : Dict.wf fd) by (repeat constructor; simpl; tauto).
  split; [exact H|].
  exact (proj1 flatten_empty_mapping_recollects str_list_unused "-" "p" fd li "a" H).
Defined.

(** A list of leaves only. *)
Lemma each_value_scalars str_list sep p ss : forall fd li,
  each_value str_list sep p (map JScalar ss) (fd, li)
  = (fd, fold_left
           (fun li s => items_append li p (SStr (str_scalar s))) ss li).
Proof.
  unfold each_value. induction ss as [|s ss IH]; intros fd li; [reflexivity|].
  cbn [map fold_left value_step]. apply IH.
Qed.

Lemma items_append_same p vs v :
  items_append [(p, vs)] p v = [(p, vs ++ [v])].
Proof.
  unfold items_append, Dict.mem. simpl. rewrite String.eqb_refl. simpl.
  now rewrite String.eqb_refl.
Qed.

Lemma fold_items_append_same p ss : forall vs,
  fold_left (fun li s => items_append li p (SStr (str_scalar s))) ss [(p, vs)]
  = [(p, vs ++ map (fun s => SStr (str_scalar s)) ss)].
Proof.
  induction ss as [|s ss IH]; intros vs; simpl.
  - now rewrite app_nil_r.
  - rewrite items_append_same, IH. now rewrite <- app_assoc.
Qed.

(** C2.  A non-empty list of leaves at [p] is flattened to a single
    entry whose value is the comma-join of the [str] of the leaves, but
    whose key is [p-p], not [p]; an empty list leaves no entry at all. *)
Theorem flatten_scalar_list_key :
  (forall str_list sep p s ss,
      _flatten_data str_list sep (JDict [(p, JList (map JScalar (s :: ss)))])
      = [((p ++ sep ++ p)%string,
          SStr (PyStr.join ", " (map str_scalar (s :: ss))))]) /\
  (forall str_list sep p,
      _flatten_data str_list sep (JDict [(p, JList [])]) = []) /\
  (forall str_list,
      let out :=
        _flatten_data str_list "-"
          (JDict [("p", JList [JScalar (SInt 1); JScalar (SInt 2)])]) in
      out = [("p-p", SStr "1, 2")] /\ Dict.get out "p" = None).
Proof.
  split; [|split; [reflexivity|intros str_list; split; reflexivity]].
  intros str_list sep p s ss.
  assert (Htop : _flatten_data str_list sep (JDict [(p, JList (map JScalar (s :: ss)))])
                 = _flatten_inner str_list sep (JList (map JScalar (s :: ss))) p [])
    by reflexivity.
  rewrite Htop, flatten_inner_list, each_value_scalars.
  cbn [fold_left fst snd].
  assert (Hfirst : items_append [] p (SStr (str_scalar s)) = [(p, [SStr (str_scalar s)])]).
  { unfold items_append, Dict.mem. simpl. now rewrite String.eqb_refl. }
  rewrite Hfirst, fold_items_append_same. cbn [emit Dict.set].
  unfold joined, PyStr.join. do 3 f_equal.
  change ([SStr (str_scalar s)] ++ map (fun s0 => SStr (str_scalar s0)) ss)
    with (map (fun s0 => SStr (str_scalar s0)) (s :: ss)).
  rewrite map_map. reflexivity.
Qed.

(** ** Trees without lists *)

Section ListFree.
Variable str_list : list json -> string.
Variable sep : string.

Lemma set_all_app e1 e2 fd : set_all (e1 ++ e2) fd = set_all e2 (set_all e1 fd).
Proof. unfold set_all. apply fold_left_app. Qed.

Lemma leaf_entries_cons p key value d :
  leaf_entries sep p (JDict ((key, value) :: d))
  = leaf_entries sep (new_key sep p key) value ++ leaf_entries sep p (JDict d).
Proof.
  unfold leaf_entries. cbn [leaf_paths flat_map fst snd].
  rewrite map_app, map_map. reflexivity.
Qed.

(** On a list-free tree the flattener assigns the leaves in depth-first
    order, each under its composite key. *)
Lemma flatten_inner_list_free t :
  list_free t = true ->
  forall p fd,
    _flatten_inner str_list sep t p fd = set_all (leaf_entries sep p t) fd.
Proof.
  induction t as [s|l _|d IH] using json_ind; intros Hfree p fd.
  - reflexivity.
  - discriminate.
  - rewrite flatten_inner_dict. unfold each_item.
    cbn [list_free] in Hfree. revert fd.
    induction IH as [|[key value] d Hv _ IHd]; intros fd; [reflexivity|].
    cbn [forallb snd] in Hfree. apply andb_prop in Hfree as [Hvalue Hrest].
    cbn [fold_left fst snd]. rewrite leaf_entries_cons, set_all_app.
    rewrite Hv by assumption. now apply IHd.
Qed.

(** Assigning pairwise distinct new keys appends them in order. *)
Lemma set_all_fresh entries : forall fd,
  Dict.wf entries ->
  (forall k, In k (Dict.keys entries) -> ~ In k (Dict.keys fd)) ->
  set_all entries fd = fd ++ entries.
Proof.
  induction entries as [|[k v] entries IH]; intros fd Hwf Hfresh.
  - simpl. now rewrite app_nil_r.
  - inversion Hwf as [|? ? Hk Hwf']; subst.
    unfold set_all. cbn [fold_left fst snd]. fold (set_all entries (Dict.set fd k v)).
    rewrite set_absent by (apply Hfresh; now left).
    rewrite IH; [now rewrite <- app_assoc|assumption|].
    intros k' Hin. unfold Dict.keys. rewrite map_app, in_app_iff.
    intros [Hold|[<-|[]]].
    + apply (Hfresh k'); [now right|assumption].
    + contradiction.
Qed.

(** The composite key is the joined key list as soon as the path does not
    start with an empty key. *)
Lemma path_from_concat ks : forall p,
  p <> "" -> path_from sep p ks = String.concat sep (p :: ks).
Proof.
  induction ks as [|k ks IH]; intros p Hp; [reflexivity|].
  unfold path_from. cbn [fold_left]. fold (path_from sep (new_key sep p k) ks).
  rewrite (new_key_nonempty sep Hp).
  rewrite IH by (destruct p; [congruence|discriminate]).
  destruct ks as [|k' ks]; simpl; [reflexivity|].
  now rewrite !app_assoc_s.
Qed.

Lemma path_key_concat ks :
  hd "x" ks <> "" -> path_from sep "" ks = String.concat sep ks.
Proof.
  destruct ks as [|k ks]; [reflexivity|]. simpl hd. intros Hk.
  unfold path_from. cbn [fold_left]. fold (path_from sep (new_key sep "" k) ks).
  now apply path_from_concat.
Qed.

Lemma get_app (V : Type) (d1 d2 : Dict.t V) k :
  Dict.get (d1 ++ d2) k
  = match Dict.get d1 k with
    | Some v => Some v
    | None => Dict.get d2 k
    end.
Proof.
  induction d1 as [|[k0 v0] d1 IH]; simpl; [reflexivity|].
  destruct (String.eqb k0 k); [reflexivity|assumption].
Qed.

(** The last assignment to a key is the one that stays. *)
Lemma get_set_all entries : forall fd k,
  Dict.get (set_all entries fd) k
  = match Dict.get (rev entries) k with
    | Some v => Some v
    | None => Dict.get fd k
    end.
Proof.
  induction entries as [|[k0 v0] entries IH]; intros fd k; [reflexivity|].
  unfold set_all. cbn [fold_left fst snd]. fold (set_all entries (Dict.set fd k0 v0)).
  rewrite IH. cbn [rev]. rewrite get_app, get_set. simpl.
  destruct (Dict.get (rev entries) k); [reflexivity|].
  now destruct (String.eqb k0 k).
Qed.

Lemma keys_rev (V : Type) (d : Dict.t V) k :
  In k (Dict.keys (rev d)) <-> In k (Dict.keys d).
Proof. unfold Dict.keys. rewrite map_rev. symmetry. apply in_rev. Qed.

End ListFree.

(** C6, as the code has it.  On a list-free tree the flattener assigns
    each leaf, in depth-first order, under the key built from the root by
    [p + sep + k] ([k] alone while [p] is empty), which is the
    separator-joined key list whenever the path does not begin with an
    empty key; the keys of the output are the composite keys of the
    leaves and nothing else, and a later leaf with the same composite key
    overwrites the earlier one.  When the composite keys of the leaves
    are pairwise distinct the output is exactly one entry per leaf, in
    depth-first order. *)
Theorem flatten_list_free :
  forall (str_list : list json -> string) (sep : string) (t : json),
    list_free t = true ->
    _flatten_data str_list sep t = set_all (leaf_entries sep "" t) [] /\
    (forall k, In k (Dict.keys (_flatten_data str_list sep t)) <->
               In k (Dict.keys (leaf_entries sep "" t))) /\
    (forall k, Dict.get (_flatten_data str_list sep t) k
               = Dict.get (rev (leaf_entries sep "" t)) k) /\
    (Dict.wf (leaf_entries sep "" t) ->
     _flatten_data str_list sep t = leaf_entries sep "" t /\
     List.length (_flatten_data str_list sep t) = List.length (leaf_paths t)) /\
    (forall ks v, In (ks, v) (leaf_paths t) -> hd "x" ks <> "" ->
                  path_from sep "" ks = String.concat sep ks).
Proof.
  intros str_list sep t Hfree.
  assert (H : _flatten_data str_list sep t = set_all (leaf_entries sep "" t) [])
    by (apply flatten_inner_list_free; assumption).
  assert (Hget : forall k, Dict.get (_flatten_data str_list sep t) k
                           = Dict.get (rev (leaf_entries sep "" t)) k).
  { intros k. rewrite H, get_set_all.
    now destruct (Dict.get (rev (leaf_entries sep "" t)) k). }
  split; [exact H|]. split; [|split; [exact Hget|split]].
  - intros k. rewrite <- (keys_rev (leaf_entries sep "" t) k).
    destruct (Dict.get (_flatten_data str_list sep t) k) as [v|] eqn:E.
    + split; intros _.
      * rewrite Hget in E. eapply get_Some_keys; eassumption.
      * eapply get_Some_keys; eassumption.
    + pose proof E as E'. rewrite Hget in E'.
      apply get_None_keys in E. apply get_None_keys in E'. tauto.
  - intros Hwf. rewrite H, set_all_fresh by (auto; intros k _ []).
    split; [reflexivity|]. unfold leaf_entries. simpl. apply List.length_map.
  - intros ks v _. apply path_key_concat.
Qed.

Lemma flatten_list_free_witness :
  let t := JDict [("primary_type",
                   JDict [("id", JScalar (SInt 4611)); ("name", JScalar (SStr "Flood"))]);
                  ("status", JScalar (SStr "ongoing"))] in
  (list_free t = true /\ Dict.wf (leaf_entries "-" "" t)) /\
  _flatten_data str_list_unused "-" t
  = [("primary_type-id", SInt 4611); ("primary_type-name", SStr "Flood");
     ("status", SStr "ongoing")].
Proof.
  intros t.
  assert (H1 : list_free t = true) by reflexivity.
  assert (H2 : Dict.wf (leaf_entries "-" "" t)).
  { repeat constructor; simpl; intuition discriminate. }
  split; [split; assumption|].
  exact (proj1 (proj1 (proj2 (proj2 (proj2
           (flatten_list_free str_list_unused "-" t H1)))) H2)).
Defined.

(** C6 as stated fails when two leaves share a composite key: the tree
    [{"a-b": 1, "a": {"b": 2}}] has two leaves and one output entry. *)
Lemma flatten_list_free_collision :
  let t := JDict [("a-b", JScalar (SInt 1));
                  ("a", JDict [("b", JScalar (SInt 2))])] in
  list_free t = true /\
  leaf_paths t = [(["a-b"], SInt 1); (["a"; "b"], SInt 2)] /\
  _flatten_data str_list_unused "-" t = [("a-b", SInt 2)] /\
  List.length (_flatten_data str_list_unused "-" t) <> List.length (leaf_paths t).
Proof. repeat split. discriminate. Qed.

(** ** From a detail body to its row *)

Section RowFacts.
Variable str_list : list json -> string.

Lemma pop_json_of_flat flat_dict k :
  Py.pop_default (json_of_flat flat_dict) k
  = Ok (json_of_flat (Dict.pop flat_dict k)).
Proof.
  unfold json_of_flat, Py.pop_default, Dict.pop. do 2 f_equal.
  induction flat_dict as [|[k0 v0] fd IH]; simpl; [reflexivity|].
  destruct (String.eqb k0 k); simpl; congruence.
Qed.

Lemma pop_kept keys k (flat_dict : flat) :
  filter (kept keys) (Dict.pop flat_dict k) = filter (kept (k :: keys)) flat_dict.
Proof.
  unfold Dict.pop, kept.
  induction flat_dict as [|[k0 v0] fd IH]; simpl; [reflexivity|].
  destruct (String.eqb k0 k); simpl; [assumption|].
  destruct (existsb (String.eqb k0) keys); simpl; [|f_equal]; exact IH.
Qed.

Lemma pop_all_flat keys : forall flat_dict,
  pop_all keys (json_of_flat flat_dict)
  = Ok (json_of_flat (filter (kept keys) flat_dict)).
Proof.
  induction keys as [|k keys IH]; intros fd; cbn [pop_all].
  - do 2 f_equal. unfold kept. simpl.
    induction fd as [|kv fd IHfd]; simpl; congruence.
  - rewrite pop_json_of_flat. cbn [bind_result]. rewrite IH.
    now rewrite pop_kept.
Qed.

Lemma get_json_of_flat flat_dict k :
  Py.getitem (json_of_flat flat_dict) k
  = match Dict.get flat_dict k with
    | Some v => Ok (JScalar v)
    | None => Raise KeyError
    end.
Proof.
  simpl. induction flat_dict as [|[k0 v0] fd IH]; simpl; [reflexivity|].
  destruct (String.eqb k0 k); [reflexivity|assumption].
Qed.

Lemma get_filter_kept keys (flat_dict : flat) k :
  Dict.get (filter (kept keys) flat_dict) k
  = if existsb (String.eqb k) keys then None else Dict.get flat_dict k.
Proof.
  induction flat_dict as [|[k0 v0] fd IH]; simpl.
  - now destruct (existsb (String.eqb k) keys).
  - unfold kept at 1. simpl.
    destruct (String.eqb_spec k0 k) as [->|Hne].
    + destruct (existsb (String.eqb k) keys) eqn:E; simpl.
      * rewrite IH. reflexivity.
      * now rewrite String.eqb_refl.
    + destruct (existsb (String.eqb k0) keys); simpl; rewrite ?IH.
      * reflexivity.
      * destruct (String.eqb_spec k0 k); [contradiction|reflexivity].
Qed.

Lemma existsb_eqb_In k keys :
  existsb (String.eqb k) keys = true <-> In k keys.
Proof.
  rewrite existsb_exists. split.
  - intros (x & Hin & Heq). apply String.eqb_eq in Heq. now subst.
  - intros H. exists k. split; [assumption|apply String.eqb_refl].
Qed.

Lemma for_each_chars s ds :
  for_each (format_entry str_list) (Py.chars s) = Ok ds -> s = "".
Proof. destruct s; [reflexivity|discriminate]. Qed.

(** The row is the flattened [data[0].fields] of the body, less the
    removed keys. *)
Lemma format_row_inv disaster_data row :
  format_row str_list disaster_data = Ok row ->
  exists raw,
    detail_fields disaster_data = Ok raw /\
    row = json_of_flat
            (filter (kept remove_keys) (_flatten_data str_list "-" raw)).
Proof.
  unfold format_row, _format_data, detail_fields.
  destruct disaster_data as [s|l|kv]; try discriminate.
  cbn [Py.getitem bind_result].
  destruct (Dict.get kv "data") as [entries|] eqn:Hdata; [|discriminate].
  cbn [bind_result].
  destruct entries as [s|ds|ed].
  - destruct s as [| | | |s]; try discriminate. cbn [Py.iter bind_result].
    destruct (for_each (format_entry str_list) (Py.chars s)) as [ds'|] eqn:E;
      [|discriminate].
    apply for_each_chars in E. subst s. cbn [bind_result Py.getitem].
    rewrite Hdata. discriminate.
  - cbn [Py.iter bind_result].
    destruct (for_each (format_entry str_list) ds) as [ds'|] eqn:E; [|discriminate].
    cbn [bind_result Py.getitem]. rewrite get_set_same. cbn [bind_result].
    destruct ds as [|first ds]; [simpl in E; injection E as <-; discriminate|].
    cbn [for_each bind_result] in E.
    destruct (format_entry str_list first) as [first'|] eqn:E1; [|discriminate].
    cbn [bind_result] in E.
    destruct (for_each (format_entry str_list) ds) as [rest'|]; [|discriminate].
    injection E as <-. cbn [Py.getitem0 bind_result].
    destruct first as [s|l|fkv]; try discriminate. cbn [format_entry] in E1.
    destruct (Dict.get fkv "fields") as [raw|] eqn:Hraw; [|discriminate].
    injection E1 as <-. cbn [Py.getitem]. rewrite get_set_same, Hraw.
    cbn [bind_result]. rewrite pop_all_flat. intros [= <-].
    exists raw. split; reflexivity.
  - cbn [Py.iter bind_result].
    destruct (for_each (format_entry str_list)
                (map (fun k => JScalar (SStr k)) (Dict.keys ed))) as [ds'|] eqn:E;
      [|discriminate].
    cbn [bind_result Py.getitem]. rewrite Hdata. discriminate.
Qed.

(** A body of the documented shape always yields a row. *)
Lemma format_row_shaped disaster_data :
  detail_shaped disaster_data = true ->
  exists row, format_row str_list disaster_data = Ok row.
Proof.
  unfold detail_shaped.
  destruct disaster_data as [s|l|kv]; try discriminate.
  destruct (Dict.get kv "data") as [[s|[|e es]|ed]|] eqn:Hdata; try discriminate.
  intros Hshape.
  assert (Hall : forall ds, forallb has_fields ds = true ->
                   exists ds', for_each (format_entry str_list) ds = Ok ds' /\
                               List.length ds' = List.length ds).
  { induction ds as [|d ds IH]; intros H; [now exists []|].
    cbn [forallb] in H. apply andb_prop in H as [Hd Hds].
    destruct (IH Hds) as (ds' & Hds' & Hlen).
    destruct d as [s|l|dkv]; try discriminate. unfold has_fields, Dict.mem in Hd.
    destruct (Dict.get dkv "fields") as [raw|] eqn:Hraw; [|discriminate].
    eexists. cbn [for_each format_entry]. rewrite Hraw, Hds'. cbn [bind_result].
    split; [reflexivity|]. simpl. now rewrite Hlen. }
  cbn [forallb] in Hshape. apply andb_prop in Hshape as [He Hes].
  destruct e as [s|l|ekv]; try discriminate. unfold has_fields, Dict.mem in He.
  destruct (Dict.get ekv "fields") as [raw|] eqn:Hraw; [|discriminate].
  destruct (Hall es Hes) as (es' & Hes' & _).
  unfold format_row, _format_data. cbn [Py.getitem bind_result].
  rewrite Hdata. cbn [bind_result Py.iter for_each format_entry].
  rewrite Hraw, Hes'. cbn [bind_result Py.getitem]. rewrite get_set_same.
  cbn [bind_result Py.getitem0 Py.getitem]. rewrite get_set_same.
  cbn [bind_result]. rewrite pop_all_flat. eexists. reflexivity.
Qed.

End RowFacts.

(** ** The loop of [scrape_data] *)

Section PipelineFacts.
Variable R : Type.
Variable download_json : json -> R -> fetch * R.
Variable str_list : list json -> string.
Variable config : configuration.

Local Abbreviation scrape_item' := (scrape_item download_json str_list).
Local Abbreviation scrape_loop' := (scrape_loop download_json str_list).

Lemma item_shaped_inv disaster :
  item_shaped disaster = true ->
  exists url name,
    Py.getitem disaster "href" = Ok url /\ disaster_name disaster = Ok name.
Proof.
  destruct disaster as [s|l|kv]; try discriminate. unfold item_shaped, Dict.mem.
  destruct (Dict.get kv "href") as [url|] eqn:Hurl; [|discriminate].
  destruct (Dict.get kv "fields") as [[s|l|f]|] eqn:Hf; try discriminate.
  destruct (Dict.get f "name") as [name|] eqn:Hn; [|discriminate].
  intros _. exists url, name. unfold disaster_name. simpl.
  rewrite Hurl, Hf. simpl. now rewrite Hn.
Qed.

(** What one round does to the row list: nothing, or one row appended. *)
Lemma scrape_item_rows acc disaster w rows w' :
  scrape_item' acc disaster w = (Ok rows, w') ->
  rows = acc \/
  exists body row, format_row str_list body = Ok row /\ rows = acc ++ [row].
Proof.
  unfold scrape_item, bind, lift, ret, logger, try_download.
  destruct (Py.getitem disaster "href") as [url|]; [|discriminate].
  destruct (download_json url (retriever w)) as [[body|msg] st].
  - destruct (Py.truthy body); cbn [negb].
    + destruct (format_row str_list body) as [row|] eqn:Hrow; [|discriminate].
      intros [= <- _]. right. now exists body, row.
    + destruct (disaster_name disaster); [|discriminate].
      intros [= <- _]. now left.
  - destruct (disaster_name disaster); [|discriminate].
    destruct (PyStr.contains "404" msg); intros [= <- _]; now left.
Qed.

Lemma scrape_loop_rows (P : json -> Prop) :
  (forall body row, format_row str_list body = Ok row -> P row) ->
  forall disaster_list acc w rows w',
    Forall P acc ->
    scrape_loop' disaster_list acc w = (Ok rows, w') ->
    Forall P rows.
Proof.
  intros HP. induction disaster_list as [|d ds IH]; intros acc w rows w' Hacc.
  - intros [= <- _]. assumption.
  - cbn [scrape_loop]. unfold bind at 1.
    destruct (scrape_item' acc d w) as [[acc'|e] w1] eqn:Hitem; [|discriminate].
    apply IH. apply scrape_item_rows in Hitem as [->|(body & row & Hrow & ->)];
      [assumption|].
    apply Forall_app. split; [assumption|]. repeat constructor. eauto.
Qed.

Lemma scrape_data_rows (P : json -> Prop) :
  (forall body row, format_row str_list body = Ok row -> P row) ->
  forall w rows w',
    scrape_data download_json str_list config w = (Ok rows, w') ->
    Forall P rows.
Proof.
  intros HP w rows w'. unfold scrape_data, download, bind, lift, ret, logger, try_download.
  cbn [retriever logged].
  destruct (download_json _ (retriever w)) as [[data|msg] st]; [|discriminate].
  destruct (Py.getitem data "data") as [dl|]; [|discriminate].
  destruct (Py.iter dl) as [ds|]; [|discriminate].
  apply scrape_loop_rows; auto.
Qed.

(** One round that returns: the item has a link, the retriever is asked
    once, and either the fetch failed, the rows are as before and the log
    has one more entry, or the fetch gave a body with a row, the row is
    appended and the log is as before. *)
Lemma scrape_item_outcome acc disaster w rows w' :
  scrape_item' acc disaster w = (Ok rows, w') ->
  exists url r,
    Py.getitem disaster "href" = Ok url /\
    download_json url (retriever w) = (r, retriever w') /\
    ((failed r = true /\ rows = acc /\
      exists name,
        disaster_name disaster = Ok name /\
        logged w' = logged w ++ [skip_entry name r]) \/
     (failed r = false /\ logged w' = logged w /\
      exists body row,
        r = Returned body /\ format_row str_list body = Ok row /\
        rows = acc ++ [row])).
Proof.
  unfold scrape_item, bind, lift, ret, logger, try_download.
  destruct (Py.getitem disaster "href") as [url|]; [|discriminate].
  destruct (download_json url (retriever w)) as [[body|msg] st] eqn:Hd.
  - destruct (Py.truthy body) eqn:Ht; cbn [negb].
    + destruct (format_row str_list body) as [row|] eqn:Hrow; [|discriminate].
      intros [= <- <-]. exists url, (Returned body). cbn [retriever logged].
      split; [reflexivity|]. split; [exact Hd|]. right.
      unfold failed. cbn [not_found fetch_error empty_body]. rewrite Ht.
      split; [reflexivity|]. split; [reflexivity|]. now exists body, row.
    + destruct (disaster_name disaster) as [name|]; [|discriminate].
      intros [= <- <-]. exists url, (Returned body). cbn [retriever logged].
      split; [reflexivity|]. split; [exact Hd|]. left.
      unfold failed. cbn [not_found fetch_error empty_body]. rewrite Ht.
      split; [reflexivity|]. split; [reflexivity|]. now exists name.
  - destruct (disaster_name disaster) as [name|]; [|discriminate].
    assert (Hfailed : failed (Raised msg) = true).
    { unfold failed. cbn [not_found fetch_error empty_body].
      now destruct (PyStr.contains "404" msg). }
    destruct (PyStr.contains "404" msg) eqn:E; intros [= <- <-];
      exists url, (Raised msg); cbn [retriever logged];
      (split; [reflexivity|]); (split; [exact Hd|]); left;
      (split; [exact Hfailed|]); (split; [reflexivity|]);
      exists name; cbn [skip_entry]; now rewrite E.
Qed.

(** The loop, when it returns: every item was asked for, the rows added
    are those of the answers that did not fail, the entries logged those
    of the answers that failed, both in the order of the listing. *)
Lemma scrape_loop_outcomes disaster_list : forall acc w rows w',
  scrape_loop' disaster_list acc w = (Ok rows, w') ->
  exists new evs,
    rows = acc ++ new /\ logged w' = logged w ++ evs /\
    List.length (answers download_json disaster_list (retriever w))
    = List.length disaster_list /\
    Forall2
      (fun r row =>
         exists body, r = Returned body /\ format_row str_list body = Ok row)
      (filter (fun r => negb (failed r))
         (answers download_json disaster_list (retriever w)))
      new /\
    Forall2
      (fun dr ev =>
         exists name,
           disaster_name (fst dr) = Ok name /\ ev = skip_entry name (snd dr))
      (filter (fun dr => failed (snd dr))
         (combine disaster_list
            (answers download_json disaster_list (retriever w))))
      evs.
Proof.
  induction disaster_list as [|d ds IH]; intros acc w rows w'.
  - intros [= <- <-]. exists [], []. rewrite !app_nil_r.
    repeat split; constructor.
  - cbn [scrape_loop]. unfold bind at 1.
    destruct (scrape_item' acc d w) as [[acc'|e] w1] eqn:Hitem; [|discriminate].
    intros Hloop.
    apply scrape_item_outcome in Hitem as (url & r & Hurl & Hd & Hcase).
    apply IH in Hloop as (new & evs & -> & Hlog & Hlen & Hrows & Hevs).
    cbn [answers]. rewrite Hurl, Hd. cbn [combine filter snd List.length].
    destruct Hcase as [(Hf & -> & name & Hname & Hlog1)
                      |(Hf & Hlog1 & body & row & -> & Hrow & ->)].
    + rewrite Hf. cbn [negb]. exists new, (skip_entry name r :: evs).
      split; [reflexivity|]. split; [now rewrite Hlog, Hlog1, <- app_assoc|].
      split; [now rewrite Hlen|]. split; [assumption|].
      constructor; [now exists name|assumption].
    + rewrite Hf. cbn [negb]. exists (row :: new), evs.
      split; [now rewrite <- app_assoc|]. split; [now rewrite Hlog, Hlog1|].
      split; [now rewrite Hlen|]. split; [|assumption].
      constructor; [now exists body|assumption].
Qed.

(** Every answer fails in exactly one of the three ways or in none. *)
Lemma failures_partition rs :
  List.length (filter (fun r => negb (failed r)) rs)
  + List.length (filter not_found rs) + List.length (filter fetch_error rs)
  + List.length (filter empty_body rs)
  = List.length rs.
Proof.
  induction rs as [|[body|msg] rs IH]; [reflexivity| |]; cbn [filter].
  - unfold failed at 1. cbn [not_found fetch_error empty_body orb].
    destruct (Py.truthy body); cbn [negb List.length]; lia.
  - unfold failed at 1. cbn [not_found fetch_error empty_body].
    destruct (PyStr.contains "404" msg); cbn [negb orb List.length]; lia.
Qed.

(** One round on an item with a link and a name, when a non-empty body
    it is answered with has the documented shape, returns. *)
Lemma scrape_item_returns acc disaster w url r st :
  item_shaped disaster = true ->
  Py.getitem disaster "href" = Ok url ->
  download_json url (retriever w) = (r, st) ->
  shaped_answer r = true ->
  exists rows evs,
    scrape_item' acc disaster w
    = (Ok rows, {| retriever := st; logged := logged w ++ evs |}).
Proof.
  intros Hitem Hurl Hd Hshape.
  destruct (item_shaped_inv _ Hitem) as (url' & name & Hurl' & Hname).
  unfold scrape_item, bind, lift, ret, logger, try_download.
  rewrite Hurl, Hd, Hname. destruct r as [body|msg].
  - cbn [shaped_answer] in Hshape. destruct (Py.truthy body); cbn [negb].
    + destruct (format_row_shaped str_list body Hshape) as [row Hrow].
      rewrite Hrow. exists (acc ++ [row]), []. now rewrite app_nil_r.
    + now exists acc, [InfoNoData name].
  - destruct (PyStr.contains "404" msg);
      [now exists acc, [Info404 name msg]
      |now exists acc, [ErrorDownloading name msg]].
Qed.

Lemma scrape_loop_returns disaster_list : forall acc w,
  Forall (fun d => item_shaped d = true) disaster_list ->
  Forall (fun r => shaped_answer r = true)
    (answers download_json disaster_list (retriever w)) ->
  exists rows w', scrape_loop' disaster_list acc w = (Ok rows, w').
Proof.
  induction disaster_list as [|d ds IH]; intros acc w Hitems Hshapes.
  - now exists acc, w.
  - inversion Hitems as [|? ? Hd Hds]; subst.
    destruct (item_shaped_inv _ Hd) as (url & name & Hurl & _).
    cbn [answers] in Hshapes. rewrite Hurl in Hshapes.
    destruct (download_json url (retriever w)) as [r st] eqn:Hfetch.
    inversion Hshapes as [|? ? Hr Hrs]; subst.
    destruct (@scrape_item_returns acc d w url r st Hd Hurl Hfetch Hr)
      as (rows1 & evs & H1).
    cbn [scrape_loop]. unfold bind at 1. rewrite H1.
    apply IH; assumption.
Qed.

End PipelineFacts.

(** ** Claims about the pipeline *)

(** C4, amended.  When every listed item has a link and a name and
    every non-empty body the retriever returns has the documented shape,
    the run of [scrape_data] returns whatever the per-item fetches do.  In
    every run that returns, each item has been asked for once, in the
    order of the listing; an item whose fetch raised (with or without
    [404] in the text) or returned an empty body gives no row and one log
    entry of its kind with its name, every other item gives the row of
    its body and no entry, and the number of rows is the number of items
    less the numbers of items that failed in each of the three ways. *)
Theorem scrape_data_skips_failures :
  forall (R : Type) (download_json : json -> R -> fetch * R)
         (str_list : list json -> string) (config : configuration)
         (w : world R) (listing : json) (st : R) (items : list json),
    download_json (JScalar (SStr (data_url config))) (retriever w)
      = (Returned listing, st) ->
    Py.getitem listing "data" = Ok (JList items) ->
    let rs := answers download_json items st in
    (Forall (fun d => item_shaped d = true) items ->
     Forall (fun r => shaped_answer r = true) rs ->
     exists rows w',
       scrape_data download_json str_list config w = (Ok rows, w')) /\
    (forall rows w',
        scrape_data download_json str_list config w = (Ok rows, w') ->
        List.length rs = List.length items /\
        Forall2
          (fun r row =>
             exists body,
               r = Returned body /\ format_row str_list body = Ok row)
          (filter (fun r => negb (failed r)) rs) rows /\
        (exists evs,
            logged w' = logged w ++ InfoScraping :: evs /\
            Forall2
              (fun dr ev =>
                 exists name,
                   disaster_name (fst dr) = Ok name /\
                   ev = skip_entry name (snd dr))
              (filter (fun dr => failed (snd dr)) (combine items rs)) evs) /\
        List.length rows + List.length (filter not_found rs)
          + List.length (filter fetch_error rs)
          + List.length (filter empty_body rs) = List.length items /\
        List.length rows
        = List.length items - List.length (filter not_found rs)
          - List.length (filter fetch_error rs)
          - List.length (filter empty_body rs)).
Proof.
  intros R download_json str_list config w listing st items Hlist Hdata rs.
  assert (Hrun : scrape_data download_json str_list config w
                 = scrape_loop download_json str_list items []
                     {| retriever := st; logged := logged w ++ [InfoScraping] |}).
  { unfold scrape_data, download, bind, lift, ret, logger, try_download.
    cbn [retriever logged]. rewrite Hlist, Hdata. reflexivity. }
  split.
  - intros Hitems Hshapes. rewrite Hrun.
    apply scrape_loop_returns; assumption.
  - intros rows w' H. rewrite Hrun in H.
    apply scrape_loop_outcomes in H
      as (new & evs & Hnew & Hlog & Hlen & Hrows & Hevs).
    cbn [retriever logged app] in Hnew, Hlog, Hlen, Hrows, Hevs. subst new.
    fold rs in Hlen, Hrows, Hevs.
    pose proof (failures_partition rs) as Hpart.
    pose proof (Forall2_length Hrows) as Hcount.
    split; [assumption|]. split; [assumption|].
    split; [exists evs; split; [now rewrite Hlog, <- app_assoc|assumption]|].
    split; lia.
Qed.

Lemma scrape_data_skips_failures_witness :
  let items :=
    [Fixture.item "52092" "Sudan: Floods - Jul 2024"; Fixture.item "1" "withdrawn";
     Fixture.item "2" "unreachable"; Fixture.item "3" "blank"] in
  let rs := answers Fixture.download_json items 1 in
  let run := scrape_data Fixture.download_json str_list_unused Fixture.config
               Fixture.start in
  let rows := match fst run with Ok rows => rows | Raise _ => [] end in
  (Fixture.download_json (JScalar (SStr (data_url Fixture.config))) 0
     = (Returned Fixture.listing, 1) /\
   Py.getitem Fixture.listing "data" = Ok (JList items) /\
   Forall (fun d => item_shaped d = true) items /\
   Forall (fun r => shaped_answer r = true) rs /\
   run = (Ok rows, snd run)) /\
  (exists rows' w', run = (Ok rows', w')) /\
  rs = [Returned Fixture.detail; Raised "404 Client Error: Not Found";
        Raised "503 Server Error: Service Unavailable";
        Returned (JScalar SNone)] /\
  List.length rs = List.length items /\
  Forall2
    (fun r row =>
       exists body,
         r = Returned body /\ format_row str_list_unused body = Ok row)
    (filter (fun r => negb (failed r)) rs) rows /\
  (exists evs,
      logged (snd run) = logged Fixture.start ++ InfoScraping :: evs /\
      Forall2
        (fun dr ev =>
           exists name,
             disaster_name (fst dr) = Ok name /\ ev = skip_entry name (snd dr))
        (filter (fun dr => failed (snd dr)) (combine items rs)) evs) /\
  List.length rows + List.length (filter not_found rs)
    + List.length (filter fetch_error rs)
    + List.length (filter empty_body rs) = List.length items /\
  List.length rows
  = List.length items - List.length (filter not_found rs)
    - List.length (filter fetch_error rs)
    - List.length (filter empty_body rs).
Proof.
  intros items rs run rows.
  assert (H1 : Fixture.download_json (JScalar (SStr (data_url Fixture.config)))
                 (retriever Fixture.start)
               = (Returned Fixture.listing, 1)) by reflexivity.
  assert (H2 : Py.getitem Fixture.listing "data" = Ok (JList items)) by reflexivity.
  assert (H3 : Forall (fun d => item_shaped d = true) items)
    by (repeat constructor).
  assert (H4 : Forall (fun r => shaped_answer r = true) rs)
    by (repeat constructor).
  assert (H5 : run = (Ok rows, snd run)) by reflexivity.
  split; [repeat split; assumption|].
  split; [exact (proj1 (@scrape_data_skips_failures nat Fixture.download_json
                          str_list_unused Fixture.config Fixture.start
                          Fixture.listing 1 items H1 H2) H3 H4)|].
  split; [reflexivity|].
  exact (proj2 (@scrape_data_skips_failures nat Fixture.download_json
                  str_list_unused Fixture.config Fixture.start
                  Fixture.listing 1 items H1 H2) rows (snd run) H5).
Defined.

(** C4 as stated fails outside these shapes.  The first of two listed
    items has no name under ["fields"] and its fetch raises a [404]: the
    name is looked up for the log line, the lookup raises [KeyError] in
    the handler, and the run stops there without asking for the second
    item, whose body would have given a row.  And a body that is not
    empty but has no [data[0]] raises [IndexError] at
    [flat_data["data"][0]], outside the [try], at the first item. *)
Lemma scrape_data_aborts_on_unnamed_item :
  let items := [Fixture.unnamed; Fixture.item "52092" "Sudan: Floods - Jul 2024"] in
  let run := scrape_data Fixture.download_unnamed str_list_unused Fixture.config
               Fixture.start in
  Py.getitem Fixture.unnamed_listing "data" = Ok (JList items) /\
  answers Fixture.download_unnamed items 1
  = [Raised "404 Client Error: Not Found"; Returned Fixture.detail] /\
  detail_shaped Fixture.detail = true /\
  run = (Raise KeyError, {| retriever := 2; logged := [InfoScraping] |}) /\
  (forall rows w', run <> (Ok rows, w')) /\
  scrape_data Fixture.download_unshaped str_list_unused Fixture.config Fixture.start
  = (Raise IndexError, {| retriever := 2; logged := [InfoScraping] |}).
Proof. repeat split. discriminate. Qed.

(** C5.  On an empty row list [generate_dataset] raises [IndexError] at
    [disaster_list[0]], and so does the whole run when the listing is
    empty; the library call that would receive the rows is not reached,
    so this holds whatever that call does. *)
Theorem generate_dataset_empty_batch :
  (forall (R : Type) (config : configuration) (temp_dir : string)
          (generate_resource_from_iterable : resource_call -> result unit)
          (w : world R),
      generate_dataset config temp_dir generate_resource_from_iterable [] w
      = (Raise IndexError,
         {| retriever := retriever w;
            logged := logged w ++ [InfoCreating "ReliefWeb Disasters List"] |})) /\
  scrape_data Fixture.download_nothing str_list_unused Fixture.config Fixture.start
  = (Ok [], {| retriever := 1; logged := [InfoScraping] |}) /\
  (forall generate_resource_from_iterable : resource_call -> result unit,
      fst (scrape_and_generate Fixture.download_nothing str_list_unused
             Fixture.config "/tmp" generate_resource_from_iterable Fixture.start)
      = Raise IndexError).
Proof. repeat split. Qed.

(** C7.  The row made from a detail body is the flattened
    [data[0].fields] with the five removed keys taken out and every other
    entry kept in place; no row returned by [scrape_data] has one of the
    five keys. *)
Theorem rows_lack_removed_keys :
  (forall (str_list : list json -> string) (disaster_data row : json),
      format_row str_list disaster_data = Ok row ->
      exists raw,
        detail_fields disaster_data = Ok raw /\
        row = json_of_flat
                (filter (kept remove_keys) (_flatten_data str_list "-" raw)) /\
        (forall k, In k remove_keys -> Py.getitem row k = Raise KeyError) /\
        (forall k, ~ In k remove_keys ->
           Py.getitem row k
           = Py.getitem (json_of_flat (_flatten_data str_list "-" raw)) k)) /\
  (forall (R : Type) (download_json : json -> R -> fetch * R)
          (str_list : list json -> string) (config : configuration)
          (w w' : world R) (rows : list json),
      scrape_data download_json str_list config w = (Ok rows, w') ->
      Forall (fun row => forall k, In k remove_keys ->
                                   Py.getitem row k = Raise KeyError) rows).
Proof.
  assert (Hrow : forall str_list disaster_data row,
      format_row str_list disaster_data = Ok row ->
      exists raw,
        detail_fields disaster_data = Ok raw /\
        row = json_of_flat
                (filter (kept remove_keys) (_flatten_data str_list "-" raw)) /\
        (forall k, In k remove_keys -> Py.getitem row k = Raise KeyError) /\
        (forall k, ~ In k remove_keys ->
           Py.getitem row k
           = Py.getitem (json_of_flat (_flatten_data str_list "-" raw)) k)).
  { intros str_list body row H.
    destruct (format_row_inv _ _ H) as (raw & Hraw & ->).
    exists raw. split; [assumption|]. split; [reflexivity|].
    split; intros k Hk; rewrite !get_json_of_flat, get_filter_kept.
    - apply existsb_eqb_In in Hk. now rewrite Hk.
    - destruct (existsb (String.eqb k) remove_keys) eqn:E; [|reflexivity].
      apply existsb_eqb_In in E. contradiction. }
  split; [exact Hrow|].
  intros R download_json str_list config w w' rows H.
  eapply scrape_data_rows; [|exact H].
  intros body row Hr. destruct (Hrow _ _ _ Hr) as (raw & _ & _ & Hnone & _).
  exact Hnone.
Qed.

Lemma rows_lack_removed_keys_witness :
  let row :=
    JDict [("id", JScalar (SInt 52092));
           ("name", JScalar (SStr "Sudan: Floods - Jul 2024"));
           ("primary_type-id", JScalar (SInt 4611));
           ("primary_type-code", JScalar (SStr "FL"));
           ("type-id", JScalar (SStr "4624, 4611"));
           ("type-code", JScalar (SStr "FF, FL"))] in
  let w' :=
    {| retriever := 5;
       logged := [InfoScraping;
                  Info404 (JScalar (SStr "withdrawn")) "404 Client Error: Not Found";
                  ErrorDownloading (JScalar (SStr "unreachable"))
                    "503 Server Error: Service Unavailable";
                  InfoNoData (JScalar (SStr "blank"))] |} in
  (format_row str_list_unused Fixture.detail = Ok row /\
   scrape_data Fixture.download_json str_list_unused Fixture.config Fixture.start
   = (Ok [row], w')) /\
  (exists raw,
      detail_fields Fixture.detail = Ok raw /\
      row = json_of_flat
              (filter (kept remove_keys) (_flatten_data str_list_unused "-" raw)) /\
      (forall k, In k remove_keys -> Py.getitem row k = Raise KeyError) /\
      (forall k, ~ In k remove_keys ->
         Py.getitem row k
         = Py.getitem (json_of_flat (_flatten_data str_list_unused "-" raw)) k)) /\
  Forall (fun row => forall k, In k remove_keys ->
                               Py.getitem row k = Raise KeyError) [row].
Proof.
  intros row w'.
  assert (H1 : format_row str_list_unused Fixture.detail = Ok row) by reflexivity.
  assert (H2 : scrape_data Fixture.download_json str_list_unused Fixture.config
                 Fixture.start = (Ok [row], w')) by reflexivity.
  split; [split; assumption|]. split.
  - exact (proj1 rows_lack_removed_keys str_list_unused Fixture.detail row H1).
  - exact (proj2 rows_lack_removed_keys nat Fixture.download_json str_list_unused
             Fixture.config Fixture.start w' [row] H2).
Defined.

(** ** The store: reading the input, writing [flat_dict] *)

Section StoreFacts.
Import Store.

Lemma read_last (h0 : store) o : read (h0 ++ [o]) (List.length h0) = Some o.
Proof.
  unfold read. rewrite nth_error_app2 by lia. now rewrite Nat.sub_diag.
Qed.

Lemma read_old (h0 ext : store) l o :
  read h0 l = Some o -> read (h0 ++ ext) l = Some o.
Proof.
  unfold read. intros H. rewrite nth_error_app1; [assumption|].
  apply nth_error_Some. congruence.
Qed.

Lemma read_fresh (h0 : store) : read h0 (List.length h0) = None.
Proof. unfold read. apply nth_error_None. lia. Qed.

Lemma write_last (h0 : store) o o' :
  write (h0 ++ [o]) (List.length h0) o' = h0 ++ [o'].
Proof. induction h0 as [|x h0 IH]; simpl; congruence. Qed.

Lemma of_flat_set flat_dict k v :
  of_flat (Dict.set flat_dict k v) = Dict.set (of_flat flat_dict) k (VScalar v).
Proof.
  induction flat_dict as [|[k0 v0] fd IH]; simpl; [reflexivity|].
  destruct (String.eqb k0 k); simpl; congruence.
Qed.

Lemma to_flat_of_flat flat_dict : to_flat (of_flat flat_dict) = Some flat_dict.
Proof.
  unfold to_flat. induction flat_dict as [|[k0 v0] fd IH]; simpl; [reflexivity|].
  now rewrite IH.
Qed.

Lemma setitem_last (h0 : store) fd k v :
  setitem (List.length h0) k v (h0 ++ [ODict (of_flat fd)])
  = Some (h0 ++ [ODict (of_flat (Dict.set fd k v))]).
Proof.
  unfold setitem. now rewrite read_last, write_last, of_flat_set.
Qed.

Lemma items_of_last (h0 : store) fd :
  items_of (List.length h0) (h0 ++ [ODict (of_flat fd)]) = Some fd.
Proof. unfold items_of. rewrite read_last. apply to_flat_of_flat. Qed.

Lemma all_some_impl {A B : Type} (f g : A -> option B) l : forall bs,
  (forall a b, In a l -> f a = Some b -> g a = Some b) ->
  all_some f l = Some bs -> all_some g l = Some bs.
Proof.
  induction l as [|a l IH]; intros bs Himp; simpl; [trivial|].
  destruct (f a) as [b|] eqn:Ha; [|discriminate].
  destruct (all_some f l) as [bs'|] eqn:Hl; [|discriminate].
  intros [= <-]. rewrite (Himp a b) by (simpl; auto).
  rewrite (IH bs') by (auto; intros; apply Himp; simpl; auto). reflexivity.
Qed.

(** Objects added to the store do not change what the input stands for. *)
Lemma reify_extend fuel : forall (h0 ext : store) v t,
  reify fuel h0 v = Some t -> reify fuel (h0 ++ ext) v = Some t.
Proof.
  induction fuel as [|fuel IH]; intros h0 ext [s|l] t; simpl; try congruence.
  destruct (read h0 l) as [o|] eqn:Hread; [|discriminate].
  rewrite (@read_old h0 ext l o Hread). destruct o as [d|vs].
  - destruct (all_some _ d) as [td|] eqn:Hd; [|discriminate].
    intros [= <-]. erewrite all_some_impl; [reflexivity| |exact Hd].
    intros kv b _ H. simpl in H |- *.
    destruct (reify fuel h0 (snd kv)) as [t'|] eqn:Ht; [|discriminate].
    now rewrite (IH _ _ _ _ Ht).
  - destruct (all_some _ vs) as [ts|] eqn:Hvs; [|discriminate].
    intros [= <-]. erewrite all_some_impl; [reflexivity| |exact Hvs].
    intros v b _ H. now apply IH.
Qed.

(** More fuel reads the same tree. *)
Lemma reify_more_fuel fuel : forall (h : store) v t,
  reify fuel h v = Some t -> reify (S fuel) h v = Some t.
Proof.
  induction fuel as [|fuel IH]; intros h [s|l] t; try discriminate;
    try (simpl; congruence).
  intros H. change (reify (S (S fuel)) h (VRef l))
    with (match read h l with
          | Some (OList vs) => option_map JList (all_some (reify (S fuel) h) vs)
          | Some (ODict d) =>
              option_map JDict
                (all_some
                   (fun kv => option_map (pair (fst kv)) (reify (S fuel) h (snd kv)))
                   d)
          | None => None
          end).
  cbn [reify] in H. destruct (read h l) as [[d|vs]|]; [| |discriminate].
  - destruct (all_some _ d) as [td|] eqn:Hd; [|discriminate].
    injection H as <-. erewrite all_some_impl; [reflexivity| |exact Hd].
    intros kv b _ H. cbv beta in H |- *.
    destruct (reify fuel h (snd kv)) as [t'|] eqn:Ht; [|discriminate].
    now rewrite (IH _ _ _ Ht).
  - destruct (all_some _ vs) as [ts|] eqn:Hvs; [|discriminate].
    injection H as <-. erewrite all_some_impl; [reflexivity| |exact Hvs].
    intros v b _ H. now apply IH.
Qed.

Lemma reify_fuel_le fuel fuel' (h : store) v t :
  fuel <= fuel' -> reify fuel h v = Some t -> reify fuel' h v = Some t.
Proof.
  induction 1 as [|m _ IH]; [trivial|]. intros H. now apply reify_more_fuel, IH.
Qed.

End StoreFacts.

(** ** The store model computes what the tree model computes *)

Section Simulation.
Variable str_list : list json -> string.
Variable sep : string.

Local Abbreviation with_flat h0 fd := (h0 ++ [Store.ODict (Store.of_flat fd)]).

Lemma emit_last (h0 : Store.store) p li : forall fd,
  Store.emit sep (List.length h0) p li (with_flat h0 fd)
  = Some (with_flat h0 (emit sep p li fd)).
Proof.
  induction li as [|[k v] li IH]; intros fd; simpl; [reflexivity|].
  now rewrite setitem_last, IH.
Qed.

(** The statement of the simulation at one amount of fuel. *)
Local Abbreviation simulates fuel :=
  (forall (h0 : Store.store) v t,
      Store.reify fuel h0 v = Some t ->
      forall p fd,
        Store._flatten_inner str_list sep (List.length h0) fuel v p (with_flat h0 fd)
        = Some (with_flat h0 (_flatten_inner str_list sep t p fd))).

Lemma value_step_simulates fuel (h0 : Store.store) value t p fd li :
  simulates fuel ->
  Store.reify fuel h0 value = Some t ->
  Store.value_step str_list sep (List.length h0) fuel
    (fun value => Store._flatten_inner str_list sep (List.length h0) fuel value p)
    p (with_flat h0 fd, li) value
  = Some (with_flat h0 (fst (value_step str_list sep p (fd, li) t)),
          snd (value_step str_list sep p (fd, li) t)).
Proof.
  intros Hsim Ht. destruct value as [s|l].
  - destruct fuel; simpl in Ht; injection Ht as <-; reflexivity.
  - cbn [Store.value_step].
    destruct fuel as [|fuel']; [discriminate|].
    pose proof Ht as Ht'. cbn [Store.reify] in Ht'.
    destruct (Store.read h0 l) as [[d|vs]|] eqn:Hread; [| |discriminate].
    + rewrite (@read_old h0 _ l _ Hread).
      destruct (Store.all_some _ d) as [td|]; [|discriminate]. injection Ht' as <-.
      rewrite (Hsim _ _ _ Ht), items_of_last. reflexivity.
    + rewrite (@read_old h0 _ l _ Hread).
      destruct (Store.all_some _ vs) as [ts|]; [|discriminate]. injection Ht' as <-.
      rewrite (@reify_extend _ h0 _ _ _ Ht). reflexivity.
Qed.

Lemma each_value_simulates fuel (h0 : Store.store) p vs : forall ts fd li,
  simulates fuel ->
  Store.all_some (Store.reify fuel h0) vs = Some ts ->
  Store.each_value
    (Store.value_step str_list sep (List.length h0) fuel
       (fun value => Store._flatten_inner str_list sep (List.length h0) fuel value p)
       p)
    vs (with_flat h0 fd, li)
  = Some (with_flat h0 (fst (each_value str_list sep p ts (fd, li))),
          snd (each_value str_list sep p ts (fd, li))).
Proof.
  induction vs as [|value vs IH]; intros ts fd li Hsim;
    cbn [Store.all_some Store.each_value].
  - intros [= <-]. reflexivity.
  - destruct (Store.reify fuel h0 value) as [t|] eqn:Ht; [|discriminate].
    destruct (Store.all_some (Store.reify fuel h0) vs) as [ts'|] eqn:Hts; [|discriminate].
    intros [= <-]. erewrite value_step_simulates; [|exact Hsim|exact Ht].
    unfold each_value. cbn [fold_left].
    destruct (value_step str_list sep p (fd, li) t) as [fd1 li1].
    apply IH; auto.
Qed.

Lemma each_item_simulates fuel (h0 : Store.store) p d : forall td fd,
  simulates fuel ->
  Store.all_some (fun kv => option_map (pair (fst kv)) (Store.reify fuel h0 (snd kv))) d
    = Some td ->
  Store.each_item
    (fun key value =>
       Store._flatten_inner str_list sep (List.length h0) fuel value
         (new_key sep p key))
    d (with_flat h0 fd)
  = Some (with_flat h0 (each_item str_list sep p td fd)).
Proof.
  induction d as [|[key value] d IH]; intros td fd Hsim;
    cbn [Store.all_some Store.each_item fst snd].
  - intros [= <-]. reflexivity.
  - destruct (Store.reify fuel h0 value) as [t|] eqn:Ht; [|discriminate].
    cbn [option_map].
    destruct (Store.all_some _ d) as [td'|] eqn:Htd; [|discriminate].
    intros [= <-]. rewrite (Hsim _ _ _ Ht). unfold each_item. cbn [fold_left fst snd].
    apply IH; auto.
Qed.

Lemma flatten_inner_simulates fuel : simulates fuel.
Proof.
  induction fuel as [|fuel IH]; intros h0 [s|l] t Ht p fd; try discriminate.
  - simpl in Ht. injection Ht as <-. apply setitem_last.
  - simpl in Ht. injection Ht as <-. apply setitem_last.
  - cbn [Store.reify] in Ht. cbn [Store._flatten_inner].
    destruct (Store.read h0 l) as [[d|vs]|] eqn:Hread; [| |discriminate];
      rewrite (@read_old h0 _ l _ Hread).
    + destruct (Store.all_some _ d) as [td|] eqn:Hd; [|discriminate].
      injection Ht as <-. rewrite flatten_inner_dict.
      now apply each_item_simulates.
    + destruct (Store.all_some _ vs) as [ts|] eqn:Hvs; [|discriminate].
      injection Ht as <-. rewrite flatten_inner_list.
      erewrite each_value_simulates; [|exact IH|exact Hvs]. apply emit_last.
Qed.

(** [_flatten_data] on the store: the objects that were there stay as
    they are, and one new dictionary holds the flattened tree. *)
Lemma flatten_data_simulates fuel (h : Store.store) data t :
  Store.reify fuel h data = Some t ->
  Store._flatten_data str_list sep fuel data h
  = Some (List.length h,
          h ++ [Store.ODict (Store.of_flat (_flatten_data str_list sep t))]).
Proof.
  intros Ht. unfold Store._flatten_data, Store.alloc.
  change [Store.ODict []] with [Store.ODict (Store.of_flat [])].
  now rewrite (@flatten_inner_simulates fuel h data t Ht).
Qed.

End Simulation.

(** ** Claims about calls of the flattener *)

(** C9.  A call of [_flatten_data] on an input that stands for the tree
    [t], with fuel for the depth of [t] or more, returns; every object
    that was in the store is still there unchanged, so the input stands
    for [t] after the call as before; and the dictionary returned is an
    object that did not exist before the call, hence not the input,
    holding the flattened tree. *)
Theorem flatten_leaves_input_untouched :
  forall (str_list : list json -> string) (sep : string) (fuel fuel' : nat)
         (h : Store.store) (data : Store.val) (t : json),
    Store.reify fuel h data = Some t ->
    fuel <= fuel' ->
    exists flat_dict h',
      Store._flatten_data str_list sep fuel' data h = Some (flat_dict, h') /\
      (forall l o, Store.read h l = Some o -> Store.read h' l = Some o) /\
      Store.reify fuel h' data = Some t /\
      Store.read h flat_dict = None /\
      data <> Store.VRef flat_dict /\
      Store.read h' flat_dict
      = Some (Store.ODict (Store.of_flat (_flatten_data str_list sep t))).
Proof.
  intros str_list sep fuel fuel' h data t Ht Hfuel.
  exists (List.length h), (h ++ [Store.ODict (Store.of_flat (_flatten_data str_list sep t))]).
  split; [apply flatten_data_simulates; eapply reify_fuel_le; eassumption|].
  split; [intros l o; apply read_old|].
  split; [now apply reify_extend|].
  split; [apply read_fresh|].
  split; [|apply read_last].
  intros ->. destruct fuel as [|fuel]; [discriminate|].
  cbn [Store.reify] in Ht. now rewrite read_fresh in Ht.
Qed.

Lemma flatten_leaves_input_untouched_witness :
  let t :=
    JDict [("type",
            JList [JDict [("id", JScalar (SInt 1)); ("name", JScalar (SStr "A"))];
                   JDict [("id", JScalar (SInt 2)); ("name", JScalar (SStr "B"))]])] in
  (Store.reify 3 Store.example (Store.VRef 3) = Some t /\ 3 <= 5) /\
  exists flat_dict h',
    Store._flatten_data str_list_unused "-" 5 (Store.VRef 3) Store.example
    = Some (flat_dict, h') /\
    (forall l o, Store.read Store.example l = Some o -> Store.read h' l = Some o) /\
    Store.reify 3 h' (Store.VRef 3) = Some t /\
    Store.read Store.example flat_dict = None /\
    Store.VRef 3 <> Store.VRef flat_dict /\
    Store.read h' flat_dict
    = Some (Store.ODict (Store.of_flat (_flatten_data str_list_unused "-" t))).
Proof.
  intros t.
  assert (H : Store.reify 3 Store.example (Store.VRef 3) = Some t) by reflexivity.
  assert (Hfuel : 3 <= 5) by lia.
  split; [split; assumption|].
  exact (flatten_leaves_input_untouched str_list_unused "-" Store.example
           (Store.VRef 3) H Hfuel).
Defined.

(** C8.  The output of [_flatten_data] is determined by the tree the
    input stands for, key order included: two calls on inputs that stand
    for the same tree, in whatever stores, return dictionaries with the
    same entries in the same order; in particular a second call on the
    same input, made in the store the first call left behind, returns a
    second dictionary equal to the first, which is still intact. *)
Theorem flatten_deterministic :
  forall (str_list : list json -> string) (sep : string) (t : json),
    (forall fuel1 fuel2 h1 h2 data1 data2,
        Store.reify fuel1 h1 data1 = Some t ->
        Store.reify fuel2 h2 data2 = Some t ->
        exists l1 h1' l2 h2' out,
          Store._flatten_data str_list sep fuel1 data1 h1 = Some (l1, h1') /\
          Store._flatten_data str_list sep fuel2 data2 h2 = Some (l2, h2') /\
          Store.read h1' l1 = Some (Store.ODict out) /\
          Store.read h2' l2 = Some (Store.ODict out)) /\
    (forall fuel h data,
        Store.reify fuel h data = Some t ->
        exists l1 h1 l2 h2 out,
          Store._flatten_data str_list sep fuel data h = Some (l1, h1) /\
          Store._flatten_data str_list sep fuel data h1 = Some (l2, h2) /\
          l1 <> l2 /\
          Store.read h1 l1 = Some (Store.ODict out) /\
          Store.read h2 l1 = Some (Store.ODict out) /\
          Store.read h2 l2 = Some (Store.ODict out) /\
          out = Store.of_flat (_flatten_data str_list sep t)).
Proof.
  intros str_list sep t. split.
  - intros fuel1 fuel2 h1 h2 data1 data2 H1 H2.
    set (out := Store.of_flat (_flatten_data str_list sep t)).
    exists (List.length h1), (h1 ++ [Store.ODict out]),
           (List.length h2), (h2 ++ [Store.ODict out]), out.
    split; [now apply flatten_data_simulates|].
    split; [now apply flatten_data_simulates|].
    split; apply read_last.
  - intros fuel h data Ht.
    set (out := Store.of_flat (_flatten_data str_list sep t)).
    set (h1 := h ++ [Store.ODict out]).
    assert (Ht1 : Store.reify fuel h1 data = Some t) by now apply reify_extend.
    exists (List.length h), h1, (List.length h1), (h1 ++ [Store.ODict out]), out.
    split; [now apply flatten_data_simulates|].
    split; [now apply flatten_data_simulates|].
    split; [unfold h1; rewrite List.length_app; simpl; lia|].
    split; [apply read_last|].
    split; [apply read_old, read_last|].
    split; [apply read_last|reflexivity].
Qed.

Lemma flatten_deterministic_witness :
  let t :=
    JDict [("type",
            JList [JDict [("id", JScalar (SInt 1)); ("name", JScalar (SStr "A"))];
                   JDict [("id", JScalar (SInt 2)); ("name", JScalar (SStr "B"))]])] in
  Store.reify 3 Store.example (Store.VRef 3) = Some t /\
  exists l1 h1 l2 h2 out,
    Store._flatten_data str_list_unused "-" 3 (Store.VRef 3) Store.example
    = Some (l1, h1) /\
    Store._flatten_data str_list_unused "-" 3 (Store.VRef 3) h1 = Some (l2, h2) /\
    l1 <> l2 /\
    Store.read h1 l1 = Some (Store.ODict out) /\
    Store.read h2 l1 = Some (Store.ODict out) /\
    Store.read h2 l2 = Some (Store.ODict out) /\
    out = Store.of_flat (_flatten_data str_list_unused "-" t).
Proof.
  intros t.
  assert (H : Store.reify 3 Store.example (Store.VRef 3) = Some t) by reflexivity.
  split; [exact H|].
  exact (proj2 (flatten_deterministic str_list_unused "-" t) 3 Store.example
           (Store.VRef 3) H).
Defined.

(** * Further properties of the flattener *)

(** ** Flat input *)

Section FlatInput.
Variable str_list : list json -> string.
Variable sep : string.

Lemma each_item_of_flat (fd : flat) : forall acc,
  each_item str_list sep "" (map (fun kv => (fst kv, JScalar (snd kv))) fd) acc
  = set_all fd acc.
Proof.
  unfold each_item, set_all.
  induction fd as [|[k v] fd IH]; intros acc; [reflexivity|].
  cbn [map fold_left fst snd]. rewrite IH. reflexivity.
Qed.

(** A dictionary of leaves is its own flattening. *)
Lemma flatten_json_of_flat (fd : flat) :
  Dict.wf fd -> _flatten_data str_list sep (json_of_flat fd) = fd.
Proof.
  intros Hwf. unfold _flatten_data, json_of_flat.
  rewrite flatten_inner_dict, each_item_of_flat.
  rewrite set_all_fresh; [reflexivity|assumption|intros k _ []].
Qed.

End FlatInput.

(** X1.  Flattening is a no-op on what is already flat: a dictionary of
    leaves comes back as it is, keys in the same order, and so the
    flattening of a flattened record is that record. *)
Theorem flatten_idempotent :
  forall (str_list : list json -> string) (sep : string),
    (forall fd : flat,
        Dict.wf fd -> _flatten_data str_list sep (json_of_flat fd) = fd) /\
    (forall t : json,
        _flatten_data str_list sep
          (json_of_flat (_flatten_data str_list sep t))
        = _flatten_data str_list sep t).
Proof.
  intros str_list sep. split.
  - apply flatten_json_of_flat.
  - intros t. apply flatten_json_of_flat, wf_flatten_data.
Qed.

Lemma flatten_idempotent_witness :
  let fd := [("type-id", SStr "1, 2"); ("status", SStr "ongoing"); ("id", SInt 7)] in
  Dict.wf fd /\ _flatten_data str_list_unused "-" (json_of_flat fd) = fd.
Proof.
  intros fd.
  assert (H : Dict.wf fd).
  { repeat constructor; simpl; intuition discriminate. }
  split; [exact H|].
  exact (proj1 (flatten_idempotent str_list_unused "-") fd H).
Defined.

(** ** What a call writes *)

Section Frame.
Variable str_list : list json -> string.
Variable sep : string.

Lemma startswith_refl p : PyStr.startswith p p = true.
Proof.
  unfold PyStr.startswith. induction p as [|a p IH]; simpl; [reflexivity|].
  destruct (ascii_dec a a); [assumption|congruence].
Qed.

Lemma startswith_shorter key p x :
  PyStr.startswith key (p ++ x) = true -> PyStr.startswith key p = true.
Proof.
  intros H. apply startswith_inv in H. rewrite H, app_assoc_s.
  apply startswith_app.
Qed.

Lemma startswith_empty key : PyStr.startswith key "" = true.
Proof. unfold PyStr.startswith. now destruct key. Qed.

Lemma not_under_new_key key p k :
  PyStr.startswith key p = false ->
  PyStr.startswith key (new_key sep p k) = false.
Proof.
  intros H. unfold new_key. destruct p as [|c p].
  - now rewrite startswith_empty in H.
  - cbn [PyStr.truthy].
    destruct (PyStr.startswith key (String c p ++ sep ++ k)) eqn:E; [|reflexivity].
    apply startswith_shorter in E. congruence.
Qed.

(** A call at path [p] leaves every key that does not start with [p] as
    it was. *)
Lemma flatten_inner_frame t : forall p fd key,
  PyStr.startswith key p = false ->
  Dict.get (_flatten_inner str_list sep t p fd) key = Dict.get fd key.
Proof.
  induction t as [s|l IH|d IH] using json_ind; intros p fd key Hkey.
  - cbn [_flatten_inner]. apply get_set_other. intros ->.
    now rewrite startswith_refl in Hkey.
  - rewrite flatten_inner_list.
    rewrite get_emit by (apply wf_each_value_snd, wf_nil).
    assert (Hroot : PyStr.startswith key (p ++ sep) = false).
    { destruct (PyStr.startswith key (p ++ sep)) eqn:E; [|reflexivity].
      apply startswith_shorter in E. congruence. }
    rewrite Hroot. unfold each_value.
    generalize (@nil (string * list scalar)) as li. revert fd.
    induction IH as [|value l Hv _ IHl]; intros fd li; [reflexivity|].
    cbn [fold_left]. destruct value as [s|inner|d]; cbn [value_step];
      rewrite IHl; try reflexivity.
    now apply Hv.
  - rewrite flatten_inner_dict. unfold each_item. revert fd.
    induction IH as [|[k v] d Hv _ IHd]; intros fd; [reflexivity|].
    cbn [fold_left fst snd]. rewrite IHd. apply Hv.
    now apply not_under_new_key.
Qed.

(** Every key of a flattened record starts with one of the record's own
    keys. *)
Lemma each_item_keys_under d : forall fd key,
  In key (Dict.keys (each_item str_list sep "" d fd)) ->
  In key (Dict.keys fd) \/
  exists k v, In (k, v) d /\ PyStr.startswith key k = true.
Proof.
  unfold each_item.
  induction d as [|[k v] d IH]; intros fd key Hin; [now left|].
  cbn [fold_left fst snd] in Hin. apply IH in Hin.
  destruct Hin as [Hin|(k' & v' & Hd & Hpre)].
  - change (new_key sep "" k) with k in Hin.
    destruct (PyStr.startswith key k) eqn:E.
    + right. exists k, v. split; [now left|assumption].
    + left. destruct (Dict.get fd key) as [x|] eqn:Hget.
      * eapply get_Some_keys; eassumption.
      * rewrite <- (flatten_inner_frame v k fd key E) in Hget.
        apply get_None_keys in Hget. contradiction.
  - right. exists k', v'. split; [now right|assumption].
Qed.

End Frame.

(** X2.  [_flatten_inner] at path [p] writes only keys that start with
    [p]: the entry of any other key is the same after the call as before.
    Hence every key of a flattened record starts with one of the
    record's top-level keys. *)
Theorem flatten_writes_under_path :
  forall (str_list : list json -> string) (sep : string),
    (forall (t : json) (p : string) (fd : flat) (key : string),
        PyStr.startswith key p = false ->
        Dict.get (_flatten_inner str_list sep t p fd) key = Dict.get fd key) /\
    (forall (d : list (string * json)) (key : string),
        In key (Dict.keys (_flatten_data str_list sep (JDict d))) ->
        exists k v, In (k, v) d /\ PyStr.startswith key k = true).
Proof.
  intros str_list sep. split.
  - intros t p fd key. apply flatten_inner_frame.
  - intros d key Hin. unfold _flatten_data in Hin.
    rewrite flatten_inner_dict in Hin.
    apply each_item_keys_under in Hin. destruct Hin as [[]|H]. exact H.
Qed.

Lemma flatten_writes_under_path_witness :
  let t := JList [JDict [("id", JScalar (SInt 1))]; JDict [("id", JScalar (SInt 2))]] in
  let fd := [("country-id", SStr "9"); ("name", SStr "Flood")] in
  (PyStr.startswith "country-id" "type" = false /\
   In "type-id" (Dict.keys (_flatten_data str_list_unused "-" (JDict [("type", t)])))) /\
  Dict.get (_flatten_inner str_list_unused "-" t "type" fd) "country-id"
  = Dict.get fd "country-id" /\
  exists k v, In (k, v) [("type", t)] /\ PyStr.startswith "type-id" k = true.
Proof.
  intros t fd.
  assert (H1 : PyStr.startswith "country-id" "type" = false) by reflexivity.
  assert (H2 : In "type-id"
                 (Dict.keys (_flatten_data str_list_unused "-" (JDict [("type", t)]))))
    by (simpl; auto).
  split; [split; assumption|]. split.
  - exact (proj1 (flatten_writes_under_path str_list_unused "-") t "type" fd
             "country-id" H1).
  - exact (proj2 (flatten_writes_under_path str_list_unused "-") [("type", t)]
             "type-id" H2).
Defined.

(** ** Lists of mappings: what is collected for a sub-key *)

Section CarryForward.
Variable str_list : list json -> string.
Variable sep : string.
Variable p : string.
Hypothesis p_nonempty : p <> "".

Lemma get_map_prefix (pre : string) (d : flat) k :
  Dict.get (map (fun kv => ((pre ++ fst kv)%string, snd kv)) d) (pre ++ k)%string
  = Dict.get d k.
Proof.
  induction d as [|[k0 v0] d IH]; simpl; [reflexivity|]. rewrite IH.
  destruct (String.eqb_spec k0 k) as [->|Hne].
  - now rewrite String.eqb_refl.
  - destruct (String.eqb_spec (pre ++ k0)%string (pre ++ k)%string) as [He|];
      [|reflexivity].
    apply app_inj_l in He. contradiction.
Qed.

Lemma path_from_below ks :
  ks <> [] -> path_from sep p ks = (p ++ sep ++ String.concat sep ks)%string.
Proof.
  intros Hks. rewrite (path_from_concat sep ks p_nonempty).
  destruct ks as [|k ks]; [congruence|reflexivity].
Qed.

Lemma leaf_paths_dict_nonempty d :
  Forall (fun leaf => fst leaf <> []) (leaf_paths (JDict d)).
Proof.
  cbn [leaf_paths]. apply Forall_forall. intros leaf Hin.
  apply in_flat_map in Hin as (kv & _ & Hin).
  apply in_map_iff in Hin as (leaf' & <- & _). discriminate.
Qed.

(** Below a non-empty path the composite keys of a mapping are its
    sub-keys behind the prefix. *)
Lemma leaf_entries_dict d :
  leaf_entries sep p (JDict d)
  = map (fun kv => (((p ++ sep) ++ fst kv)%string, snd kv))
      (sub_entries sep (JDict d)).
Proof.
  unfold leaf_entries, sub_entries. rewrite map_map.
  apply map_ext_in. intros leaf Hin. cbn [fst snd].
  rewrite path_from_below; [now rewrite app_assoc_s|].
  pose proof (leaf_paths_dict_nonempty d) as H.
  rewrite Forall_forall in H. now apply H.
Qed.

(** One mapping element writes its leaves; what the accumulator holds
    for a sub-key it lacks stays. *)
Lemma get_flatten_leaf_mapping e fd k :
  leaf_mapping e = true ->
  Dict.get (_flatten_inner str_list sep e p fd) (p ++ sep ++ k)%string
  = match sub_value sep k e with
    | Some v => Some v
    | None => Dict.get fd (p ++ sep ++ k)%string
    end.
Proof.
  unfold leaf_mapping. intros H. apply andb_prop in H as [Hd Hfree].
  destruct e as [s|l|d]; try discriminate.
  rewrite (flatten_inner_list_free str_list sep _ Hfree), get_set_all.
  rewrite leaf_entries_dict, <- map_rev.
  rewrite <- !app_assoc_s, get_map_prefix. reflexivity.
Qed.

(** The invariant of the loop over the elements, for one sub-key. *)
Lemma each_value_carry l : forall fd li k,
  Forall (fun e => leaf_mapping e = true) l ->
  Dict.wf fd ->
  Dict.get (snd (each_value str_list sep p l (fd, li))) k
  = match carry sep k (Dict.get fd (p ++ sep ++ k)%string) l with
    | [] => Dict.get li k
    | vs => Some (items_get li k ++ vs)
    end /\
  (carry sep k (Dict.get fd (p ++ sep ++ k)%string) l = [] ->
   Dict.get (fst (each_value str_list sep p l (fd, li))) (p ++ sep ++ k)%string
   = Dict.get fd (p ++ sep ++ k)%string).
Proof.
  unfold each_value.
  induction l as [|e l IH]; intros fd li k Hl Hwf; [split; reflexivity|].
  inversion Hl as [|? ? He Hl']; subst.
  assert (Hd : is_dict e = true).
  { unfold leaf_mapping in He. now apply andb_prop in He as [? _]. }
  cbn [fold_left]. rewrite (value_step_dict str_list sep p (fd, li) e Hd).
  cbn [fst snd].
  set (fd1 := _flatten_inner str_list sep e p fd).
  set (li1 := collect (scan_prefix (p ++ sep) fd1 []) li).
  assert (Hwf1 : Dict.wf fd1) by now apply wf_flatten_inner.
  assert (Hfd1 : Dict.get fd1 (p ++ sep ++ k)%string
                 = match sub_value sep k e with
                   | Some v => Some v
                   | None => Dict.get fd (p ++ sep ++ k)%string
                   end) by now apply get_flatten_leaf_mapping.
  assert (Hli1 : Dict.get li1 k
                 = match Dict.get fd1 (p ++ sep ++ k)%string with
                   | Some v => Some (items_get li k ++ [v])
                   | None => Dict.get li k
                   end).
  { unfold li1. rewrite get_collect_scan by assumption. now rewrite app_assoc_s. }
  destruct (IH fd1 li1 k Hl' Hwf1) as [IHli IHfd].
  cbn [carry]. rewrite <- Hfd1.
  destruct (Dict.get fd1 (p ++ sep ++ k)%string) as [v|] eqn:Hlast.
  - split; [|discriminate]. refine (eq_trans IHli _).
    destruct (carry sep k (Some v) l) as [|v' vs].
    + rewrite Hli1. reflexivity.
    + unfold items_get at 1. rewrite Hli1. now rewrite <- app_assoc.
  - assert (Hsame : Dict.get fd (p ++ sep ++ k)%string = None).
    { destruct (sub_value sep k e); [discriminate|]. now rewrite Hfd1. }
    split.
    + refine (eq_trans IHli _). unfold items_get. rewrite Hli1. reflexivity.
    + intros Hnil. refine (eq_trans (IHfd Hnil) _). congruence.
Qed.

(** Where every element holds the sub-key, nothing is carried over. *)
Lemma carry_uniform k l : forall last,
  Forall (fun e => sub_value sep k e <> None) l ->
  carry sep k last l = sub_column sep k l /\
  List.length (sub_column sep k l) = List.length l.
Proof.
  induction l as [|e l IH]; intros last Hl; [split; reflexivity|].
  inversion Hl as [|? ? He Hl']; subst.
  unfold sub_column. cbn [carry flat_map]. fold (sub_column sep k l).
  destruct (sub_value sep k e) as [v|]; [|congruence].
  destruct (IH (Some v) Hl') as [-> Hlen]. split; [reflexivity|].
  simpl. now rewrite Hlen.
Qed.

End CarryForward.

(** X3.  A list, at a non-empty path [p], of mappings without lists
    inside.  For each sub-key [k] the entry [p-k] becomes the comma-join
    of the values collected along the list: each element gives the value
    it holds under [k], and an element that lacks [k] gives again the
    value last seen, be it from an earlier element or from what the
    accumulator already held under [p-k]; when nothing is collected the
    entry is left as it was.  Where every element holds [k], the join
    has exactly one value per element, in element order. *)
Theorem flatten_list_carries_forward :
  forall (str_list : list json -> string) (sep p k : string)
         (l : list json) (fd : flat),
    p <> "" ->
    Forall (fun e => leaf_mapping e = true) l ->
    Dict.wf fd ->
    Dict.get (_flatten_inner str_list sep (JList l) p fd) (p ++ sep ++ k)%string
    = match carry sep k (Dict.get fd (p ++ sep ++ k)%string) l with
      | [] => Dict.get fd (p ++ sep ++ k)%string
      | vs => Some (joined vs)
      end /\
    (Forall (fun e => sub_value sep k e <> None) l ->
     l <> [] ->
     Dict.get (_flatten_inner str_list sep (JList l) p fd) (p ++ sep ++ k)%string
     = Some (joined (sub_column sep k l)) /\
     List.length (sub_column sep k l) = List.length l).
Proof.
  intros str_list sep p k l fd Hp Hl Hwf.
  assert (Hmain :
    Dict.get (_flatten_inner str_list sep (JList l) p fd) (p ++ sep ++ k)%string
    = match carry sep k (Dict.get fd (p ++ sep ++ k)%string) l with
      | [] => Dict.get fd (p ++ sep ++ k)%string
      | vs => Some (joined vs)
      end).
  { rewrite flatten_inner_list.
    rewrite get_emit_sub by (apply wf_each_value_snd, wf_nil).
    destruct (each_value_carry str_list sep Hp [] k Hl Hwf) as [Hli Hfd].
    match goal with
    | |- match ?x with Some _ => _ | None => _ end = _ =>
        replace x
          with (match carry sep k (Dict.get fd (p ++ sep ++ k)%string) l with
                | [] => @None (list scalar)
                | vs => Some vs
                end)
    end.
    destruct (carry sep k (Dict.get fd (p ++ sep ++ k)%string) l) as [|v vs];
      [now apply Hfd|reflexivity]. }
  split; [exact Hmain|].
  intros Hall Hne. rewrite Hmain.
  destruct (carry_uniform sep k (Dict.get fd (p ++ sep ++ k)%string) Hall)
    as [-> Hlen].
  split; [|exact Hlen].
  destruct l as [|e l']; [congruence|].
  destruct (sub_column sep k (e :: l')) as [|v vs]; [discriminate|reflexivity].
Qed.

Lemma flatten_list_carries_forward_witness :
  let l :=
    [JDict [("id", JScalar (SInt 1));
            ("location", JDict [("lat", JScalar (SFloat "15.5"))])];
     JDict [("id", JScalar (SInt 2))];
     JDict [("id", JScalar (SInt 3));
            ("location", JDict [("lat", JScalar (SFloat "9.0"))])]] in
  ("country" <> "" /\ Forall (fun e => leaf_mapping e = true) l /\
   Dict.wf (@nil (string * scalar))) /\
  Dict.get (_flatten_inner str_list_unused "-" (JList l) "country" [])
    "country-location-lat" = Some (SStr "15.5, 15.5, 9.0").
Proof.
  intros l.
  assert (H1 : "country" <> "") by discriminate.
  assert (H2 : Forall (fun e => leaf_mapping e = true) l) by (repeat constructor).
  assert (H3 : Dict.wf (@nil (string * scalar))) by constructor.
  split; [repeat split; assumption|].
  exact (proj1 (flatten_list_carries_forward str_list_unused "-" "location-lat"
                  (fd:=[]) H1 H2 H3)).
Defined.

(** * Further properties of the pipeline *)

(** ** Which bodies give a row *)

Section Acceptance.
Variable str_list : list json -> string.

Lemma for_each_format_entry_fields ds : forall ds',
  for_each (format_entry str_list) ds = Ok ds' ->
  forallb has_fields ds = true.
Proof.
  induction ds as [|d ds IH]; intros ds'; [reflexivity|].
  cbn [for_each forallb].
  destruct (format_entry str_list d) as [d'|] eqn:Hd; [|discriminate].
  cbn [bind_result].
  destruct (for_each (format_entry str_list) ds) as [rest|]; [|discriminate].
  intros _. rewrite (IH rest eq_refl), andb_true_r.
  destruct d as [s|l|kv]; try discriminate. cbn [format_entry] in Hd.
  unfold has_fields, Dict.mem.
  now destruct (Dict.get kv "fields").
Qed.

Lemma format_row_ok_shaped disaster_data row :
  format_row str_list disaster_data = Ok row ->
  detail_shaped disaster_data = true.
Proof.
  unfold format_row, _format_data, detail_shaped.
  destruct disaster_data as [s|l|kv]; try discriminate.
  cbn [Py.getitem bind_result].
  destruct (Dict.get kv "data") as [entries|] eqn:Hdata; [|discriminate].
  cbn [bind_result].
  destruct entries as [s|ds|ed].
  - destruct s as [| | | |s]; try discriminate. cbn [Py.iter bind_result].
    destruct (for_each (format_entry str_list) (Py.chars s)) as [ds'|] eqn:E;
      [|discriminate].
    apply for_each_chars in E. subst s. cbn [bind_result Py.getitem].
    rewrite Hdata. discriminate.
  - cbn [Py.iter bind_result]. destruct ds as [|first ds].
    + cbn [for_each bind_result Py.getitem]. rewrite get_set_same. discriminate.
    + destruct (for_each (format_entry str_list) (first :: ds)) as [ds'|] eqn:E;
        [|discriminate].
      intros _. eapply for_each_format_entry_fields. exact E.
  - cbn [Py.iter bind_result].
    destruct (for_each (format_entry str_list)
                (map (fun k => JScalar (SStr k)) (Dict.keys ed))) as [ds'|] eqn:E;
      [|discriminate].
    cbn [bind_result Py.getitem]. rewrite Hdata. discriminate.
Qed.

End Acceptance.

(** X4.  A detail body gives a row exactly when it is a dictionary whose
    ["data"] is a non-empty list of dictionaries that all have
    ["fields"]: every entry is formatted, although only the first one is
    used.  Without ["data"] the body raises [KeyError], with an empty
    list under ["data"] it raises [IndexError], and an entry without
    ["fields"], wherever it stands in the list, raises [KeyError]. *)
Theorem format_row_accepts :
  forall (str_list : list json -> string),
    (forall body,
        (exists row, format_row str_list body = Ok row)
        <-> detail_shaped body = true) /\
    (forall kv,
        Dict.get kv "data" = None ->
        format_row str_list (JDict kv) = Raise KeyError) /\
    (forall kv,
        Dict.get kv "data" = Some (JList []) ->
        format_row str_list (JDict kv) = Raise IndexError) /\
    (forall kv good entry rest,
        Dict.get kv "data" = Some (JList (good ++ JDict entry :: rest)) ->
        forallb has_fields good = true ->
        Dict.get entry "fields" = None ->
        format_row str_list (JDict kv) = Raise KeyError).
Proof.
  intros str_list. split; [|split; [|split]].
  - intros body. split.
    + intros [row H]. eapply format_row_ok_shaped. exact H.
    + apply format_row_shaped.
  - intros kv H. unfold format_row, _format_data. cbn [Py.getitem].
    now rewrite H.
  - intros kv H. unfold format_row, _format_data. cbn [Py.getitem].
    rewrite H. cbn [bind_result Py.iter for_each Py.getitem].
    now rewrite get_set_same.
  - intros kv good entry rest H Hgood Hentry.
    unfold format_row, _format_data. cbn [Py.getitem].
    rewrite H. cbn [bind_result Py.iter].
    assert (Hfail : for_each (format_entry str_list) (good ++ JDict entry :: rest)
                    = Raise KeyError).
    { clear H. induction good as [|g good IH]; cbn [app for_each].
      - cbn [format_entry]. now rewrite Hentry.
      - cbn [forallb] in Hgood. apply andb_prop in Hgood as [Hg Hgood].
        destruct g as [s|l|gkv]; try discriminate.
        unfold has_fields, Dict.mem in Hg. cbn [format_entry].
        destruct (Dict.get gkv "fields"); [|discriminate].
        cbn [bind_result]. now rewrite IH. }
    now rewrite Hfail.
Qed.

Lemma format_row_accepts_witness :
  let second := [("id", JScalar (SStr "2"))] in
  let kv :=
    [("data", JList ([JDict [("fields", JDict [("id", JScalar (SInt 1))])]]
                     ++ JDict second :: []))] in
  (Dict.get kv "data"
   = Some (JList ([JDict [("fields", JDict [("id", JScalar (SInt 1))])]]
                  ++ JDict second :: [])) /\
   forallb has_fields [JDict [("fields", JDict [("id", JScalar (SInt 1))])]] = true /\
   Dict.get second "fields" = None) /\
  format_row str_list_unused (JDict kv) = Raise KeyError.
Proof.
  intros second kv.
  assert (H1 : Dict.get kv "data"
               = Some (JList ([JDict [("fields", JDict [("id", JScalar (SInt 1))])]]
                              ++ JDict second :: []))) by reflexivity.
  assert (H2 : forallb has_fields
                 [JDict [("fields", JDict [("id", JScalar (SInt 1))])]] = true)
    by reflexivity.
  assert (H3 : Dict.get second "fields" = None) by reflexivity.
  split; [repeat split; assumption|].
  exact (proj2 (proj2 (proj2 (format_row_accepts str_list_unused)))
           kv _ second [] H1 H2 H3).
Defined.

(** ** [_format_data] applied again *)

Section FormatTwice.
Variable str_list : list json -> string.

Lemma not_in_pop (V : Type) (d : Dict.t V) k : ~ In k (Dict.keys (Dict.pop d k)).
Proof.
  unfold Dict.pop, Dict.keys. intros H. apply in_map_iff in H as ([k0 v0] & Hk & Hin).
  apply filter_In in Hin as [_ Hne]. simpl in *. subst k0.
  now rewrite String.eqb_refl in Hne.
Qed.

Lemma pop_absent (V : Type) (d : Dict.t V) k :
  ~ In k (Dict.keys d) -> Dict.pop d k = d.
Proof.
  unfold Dict.pop. induction d as [|[k0 v0] d IH]; simpl; [reflexivity|].
  intros H. destruct (String.eqb_spec k0 k) as [->|Hne]; [tauto|].
  simpl. rewrite IH; tauto.
Qed.

Lemma pop_set_pop (V : Type) (d : Dict.t V) k v :
  Dict.pop (Dict.set (Dict.pop d k) k v) k = Dict.pop d k.
Proof.
  rewrite set_absent by apply not_in_pop.
  unfold Dict.pop at 1. rewrite filter_app. simpl. rewrite String.eqb_refl. simpl.
  rewrite app_nil_r. apply pop_absent, not_in_pop.
Qed.

Lemma set_set (V : Type) (d : Dict.t V) k v v' :
  Dict.set (Dict.set d k v) k v' = Dict.set d k v'.
Proof.
  induction d as [|[k0 v0] d IH]; simpl.
  - now rewrite String.eqb_refl.
  - destruct (String.eqb k0 k) eqn:E; simpl; rewrite E; [reflexivity|].
    now rewrite IH.
Qed.

Lemma get_pop_other (V : Type) (d : Dict.t V) k k' :
  k <> k' -> Dict.get (Dict.pop d k) k' = Dict.get d k'.
Proof.
  intros Hne. unfold Dict.pop. induction d as [|[k0 v0] d IH]; simpl; [reflexivity|].
  destruct (String.eqb_spec k0 k) as [->|Hk]; simpl.
  - rewrite IH. destruct (String.eqb_spec k k'); [contradiction|reflexivity].
  - now rewrite IH.
Qed.

(** An entry once formatted is formatted. *)
Lemma format_entry_twice e e' :
  format_entry str_list e = Ok e' -> format_entry str_list e' = Ok e'.
Proof.
  destruct e as [s|l|kv]; try discriminate. cbn [format_entry].
  destruct (Dict.get kv "fields") as [raw|]; [|discriminate].
  intros [= <-]. cbn [format_entry].
  rewrite get_set_same, pop_set_pop.
  now rewrite flatten_json_of_flat by apply wf_flatten_data.
Qed.

Lemma for_each_twice ds : forall ds',
  for_each (format_entry str_list) ds = Ok ds' ->
  for_each (format_entry str_list) ds' = Ok ds'.
Proof.
  induction ds as [|d ds IH]; intros ds'; cbn [for_each].
  - intros [= <-]. reflexivity.
  - destruct (format_entry str_list d) as [d'|] eqn:Hd; [|discriminate].
    cbn [bind_result].
    destruct (for_each (format_entry str_list) ds) as [rest|]; [|discriminate].
    intros [= <-]. cbn [for_each bind_result].
    now rewrite (format_entry_twice _ Hd), (IH rest eq_refl).
Qed.

Lemma format_data_twice data data' :
  _format_data str_list data = Ok data' ->
  _format_data str_list data' = Ok data'.
Proof.
  unfold _format_data. destruct data as [s|l|kv]; try discriminate.
  cbn [Py.getitem].
  destruct (Dict.get kv "data") as [entries|] eqn:Hdata; [|discriminate].
  cbn [bind_result].
  destruct (Py.iter entries) as [ds|] eqn:Hiter; [|discriminate].
  cbn [bind_result].
  destruct (for_each (format_entry str_list) ds) as [ds'|] eqn:Hds; [|discriminate].
  cbn [bind_result].
  destruct entries as [s|el|ed]; intros [= <-].
  - cbn [Py.getitem]. rewrite Hdata. cbn [bind_result]. rewrite Hiter.
    cbn [bind_result]. now rewrite Hds.
  - cbn [Py.getitem]. rewrite get_set_same. cbn [bind_result Py.iter].
    cbn [Py.iter] in Hiter. injection Hiter as <-.
    rewrite (for_each_twice _ Hds). cbn [bind_result]. now rewrite set_set.
  - cbn [Py.getitem]. rewrite Hdata. cbn [bind_result]. rewrite Hiter.
    cbn [bind_result]. now rewrite Hds.
Qed.

End FormatTwice.

(** X5.  [_format_data] touches nothing but the ["fields"] of the
    entries under ["data"]: the body keeps its keys, in order, and the
    value of every key other than ["data"]; an entry keeps the value of
    every key other than ["fields"], which becomes the flattened
    ["fields"].  Applied to its own result it changes nothing. *)
Theorem format_data_idempotent :
  forall (str_list : list json -> string),
    (forall data data',
        _format_data str_list data = Ok data' ->
        _format_data str_list data' = Ok data' /\
        Py.keys data' = Py.keys data /\
        (forall k, k <> "data" -> Py.getitem data' k = Py.getitem data k)) /\
    (forall e e',
        format_entry str_list e = Ok e' ->
        format_entry str_list e' = Ok e' /\
        (exists raw,
            Py.getitem e "fields" = Ok raw /\
            Py.getitem e' "fields"
            = Ok (json_of_flat (_flatten_data str_list "-" raw))) /\
        (forall k, k <> "fields" -> Py.getitem e' k = Py.getitem e k)).
Proof.
  intros str_list. split.
  - intros data data' H. split; [now apply (format_data_twice str_list data)|].
    revert H. unfold _format_data. destruct data as [s|l|kv]; try discriminate.
    cbn [Py.getitem].
    destruct (Dict.get kv "data") as [entries|] eqn:Hdata; [|discriminate].
    cbn [bind_result].
    destruct (Py.iter entries) as [ds|]; [|discriminate]. cbn [bind_result].
    destruct (for_each (format_entry str_list) ds) as [ds'|]; [|discriminate].
    cbn [bind_result].
    destruct entries as [s|el|ed]; intros [= <-]; try (split; reflexivity).
    split.
    + cbn [Py.keys]. f_equal. apply keys_set_present.
      eapply get_Some_keys. exact Hdata.
    + intros k Hk. cbn [Py.getitem]. rewrite get_set_other by congruence.
      reflexivity.
  - intros e e' H. split; [now apply (format_entry_twice str_list e)|].
    destruct e as [s|l|kv]; try discriminate. cbn [format_entry] in H.
    destruct (Dict.get kv "fields") as [raw|] eqn:Hraw; [|discriminate].
    injection H as <-. split.
    + exists raw. cbn [Py.getitem]. now rewrite Hraw, get_set_same.
    + intros k Hk. cbn [Py.getitem].
      rewrite get_set_other by congruence. now rewrite get_pop_other by congruence.
Qed.

Lemma format_data_idempotent_witness :
  let once :=
    JDict [("href", JScalar (SStr "https://api.reliefweb.int/v1/disasters/1"));
           ("data",
            JList [JDict [("id", JScalar (SStr "1"));
                          ("fields", JDict [("date-created", JScalar (SStr "2024"))])]])] in
  _format_data str_list_unused
    (JDict [("href", JScalar (SStr "https://api.reliefweb.int/v1/disasters/1"));
            ("data",
             JList [JDict [("fields", JDict [("date", JDict [("created", JScalar (SStr "2024"))])]);
                           ("id", JScalar (SStr "1"))]])])
  = Ok once /\
  _format_data str_list_unused once = Ok once.
Proof.
  intros once.
  assert (H : _format_data str_list_unused
    (JDict [("href", JScalar (SStr "https://api.reliefweb.int/v1/disasters/1"));
            ("data",
             JList [JDict [("fields", JDict [("date", JDict [("created", JScalar (SStr "2024"))])]);
                           ("id", JScalar (SStr "1"))]])])
  = Ok once) by reflexivity.
  split; [exact H|].
  exact (proj1 (proj1 (format_data_idempotent str_list_unused) _ _ H)).
Defined.

(** ** The rows and the requests of a run *)

Section Runs.
Variable R : Type.
Variable download_json : json -> R -> fetch * R.
Variable str_list : list json -> string.
Variable config : configuration.

Lemma scrape_data_is_loop w listing st items :
  download_json (JScalar (SStr (data_url config))) (retriever w)
    = (Returned listing, st) ->
  Py.getitem listing "data" = Ok (JList items) ->
  scrape_data download_json str_list config w
  = scrape_loop download_json str_list items []
      {| retriever := st; logged := logged w ++ [InfoScraping] |}.
Proof.
  intros Hlist Hdata.
  unfold scrape_data, download, bind, lift, ret, logger, try_download.
  cbn [retriever logged]. rewrite Hlist, Hdata. reflexivity.
Qed.

Section Determined.
Variable answer : json -> fetch.
Hypothesis determined : forall url st, fst (download_json url st) = answer url.

Lemma scrape_item_survivor acc disaster w rows w' :
  scrape_item download_json str_list acc disaster w = (Ok rows, w') ->
  rows = acc ++ survivor str_list answer disaster.
Proof.
  unfold scrape_item, survivor, bind, lift, ret, logger, try_download.
  destruct (Py.getitem disaster "href") as [url|]; [|discriminate].
  rewrite <- (determined url (retriever w)).
  destruct (download_json url (retriever w)) as [[body|msg] st]; cbn [fst].
  - destruct (Py.truthy body); cbn [negb].
    + destruct (format_row str_list body) as [row|]; [|discriminate].
      now intros [= <- _].
    + destruct (disaster_name disaster); [|discriminate].
      intros [= <- _]. now rewrite app_nil_r.
  - destruct (disaster_name disaster); [|discriminate].
    destruct (PyStr.contains "404" msg); intros [= <- _]; now rewrite app_nil_r.
Qed.

Lemma scrape_loop_survivors disaster_list : forall acc w rows w',
  scrape_loop download_json str_list disaster_list acc w = (Ok rows, w') ->
  rows = acc ++ flat_map (survivor str_list answer) disaster_list.
Proof.
  induction disaster_list as [|d ds IH]; intros acc w rows w'.
  - intros [= <- _]. simpl. now rewrite app_nil_r.
  - cbn [scrape_loop]. unfold bind at 1.
    destruct (scrape_item download_json str_list acc d w) as [[acc'|e] w1] eqn:Hitem;
      [|discriminate].
    intros Hloop. apply IH in Hloop. apply scrape_item_survivor in Hitem.
    subst. cbn [flat_map]. now rewrite app_assoc.
Qed.

End Determined.
End Runs.

(** X6.  When the answer to a request depends on the request alone, the
    rows of a run that returns are the rows of the items whose fetch
    returned a non-empty body, one each, in the order of the listing; an
    item whose fetch raised or whose body was empty leaves no trace in
    the rows. *)
Theorem scrape_rows_in_listing_order :
  forall (R : Type) (download_json : json -> R -> fetch * R)
         (str_list : list json -> string) (config : configuration)
         (answer : json -> fetch)
         (w w' : world R) (listing : json) (items rows : list json),
    (forall url st, fst (download_json url st) = answer url) ->
    answer (JScalar (SStr (data_url config))) = Returned listing ->
    Py.getitem listing "data" = Ok (JList items) ->
    scrape_data download_json str_list config w = (Ok rows, w') ->
    rows = flat_map (survivor str_list answer) items.
Proof.
  intros R download_json str_list config answer w w' listing items rows
    Hdet Hlist Hdata Hrun.
  destruct (download_json (JScalar (SStr (data_url config))) (retriever w))
    as [r st] eqn:Hd.
  assert (Hr : r = Returned listing).
  { rewrite <- Hlist, <- (Hdet _ (retriever w)), Hd. reflexivity. }
  subst r. rewrite (scrape_data_is_loop _ _ _ _ Hd Hdata) in Hrun.
  apply (scrape_loop_survivors _ _ answer Hdet) in Hrun. exact Hrun.
Qed.

Lemma scrape_rows_in_listing_order_witness :
  let answer := fun url => fst (Fixture.download_json url 0) in
  let items :=
    [Fixture.item "52092" "Sudan: Floods - Jul 2024"; Fixture.item "1" "withdrawn";
     Fixture.item "2" "unreachable"; Fixture.item "3" "blank"] in
  let run := scrape_data Fixture.download_json str_list_unused Fixture.config
               Fixture.start in
  let rows := match fst run with Ok rows => rows | Raise _ => [] end in
  ((forall url st, fst (Fixture.download_json url st) = answer url) /\
   answer (JScalar (SStr (data_url Fixture.config))) = Returned Fixture.listing /\
   Py.getitem Fixture.listing "data" = Ok (JList items) /\
   run = (Ok rows, snd run)) /\
  rows = flat_map (survivor str_list_unused answer) items.
Proof.
  intros answer items run rows.
  assert (H1 : forall url st, fst (Fixture.download_json url st) = answer url)
    by reflexivity.
  assert (H2 : answer (JScalar (SStr (data_url Fixture.config)))
               = Returned Fixture.listing) by reflexivity.
  assert (H3 : Py.getitem Fixture.listing "data" = Ok (JList items)) by reflexivity.
  assert (H4 : run = (Ok rows, snd run)) by reflexivity.
  split; [repeat split; assumption|].
  exact (@scrape_rows_in_listing_order nat Fixture.download_json str_list_unused
           Fixture.config answer Fixture.start (snd run) Fixture.listing items rows
           H1 H2 H3 H4).
Defined.

(** ** The requests a run makes *)

Section Requests.
Variable R : Type.
Variable download_json : json -> R -> fetch * R.
Variable str_list : list json -> string.

Local Abbreviation traced := (tracing download_json).

(** One round makes no request when the item has no ["href"], and
    otherwise exactly one, for that reference, whatever follows. *)
Lemma scrape_item_requests acc disaster (w : world (R * list json)) res w' :
  scrape_item traced str_list acc disaster w = (res, w') ->
  (forall e, Py.getitem disaster "href" = Raise e ->
             res = Raise e /\ snd (retriever w') = snd (retriever w)) /\
  (forall url,
      Py.getitem disaster "href" = Ok url ->
      snd (retriever w') = snd (retriever w) ++ [url]).
Proof.
  unfold scrape_item, bind, lift, ret, logger, try_download, tracing.
  destruct (Py.getitem disaster "href") as [url|e].
  - destruct (download_json url (fst (retriever w))) as [[body|msg] st].
    + cbn [retriever logged].
      destruct (Py.truthy body); cbn [negb].
      * destruct (format_row str_list body); intros [= <- <-];
          (split; [discriminate|now intros ? [= <-]]).
      * destruct (disaster_name disaster); intros [= <- <-];
          (split; [discriminate|now intros ? [= <-]]).
    + cbn [retriever logged].
      destruct (disaster_name disaster);
        [destruct (PyStr.contains "404" msg)|]; intros [= <- <-];
        (split; [discriminate|now intros ? [= <-]]).
  - intros [= <- <-]. split; [now intros ? [= <-]|discriminate].
Qed.

Lemma scrape_item_requests_ok acc disaster (w : world (R * list json)) rows w' :
  scrape_item traced str_list acc disaster w = (Ok rows, w') ->
  exists url,
    Py.getitem disaster "href" = Ok url /\
    snd (retriever w') = snd (retriever w) ++ [url].
Proof.
  intros H. destruct (Py.getitem disaster "href") as [url|e] eqn:Hurl.
  - exists url. split; [reflexivity|].
    now apply (proj2 (scrape_item_requests _ _ _ H)).
  - revert H. unfold scrape_item, bind, lift. rewrite Hurl. discriminate.
Qed.

Lemma scrape_loop_requests disaster_list :
  forall acc (w : world (R * list json)) rows w',
    scrape_loop traced str_list disaster_list acc w = (Ok rows, w') ->
    exists urls,
      Forall2 (fun d url => Py.getitem d "href" = Ok url) disaster_list urls /\
      snd (retriever w') = snd (retriever w) ++ urls.
Proof.
  induction disaster_list as [|d ds IH]; intros acc w rows w'.
  - intros [= _ <-]. exists []. split; [constructor|now rewrite app_nil_r].
  - cbn [scrape_loop]. unfold bind at 1.
    destruct (scrape_item traced str_list acc d w) as [[acc'|e] w1] eqn:Hitem;
      [|discriminate].
    intros Hloop. apply IH in Hloop as (urls & Hurls & Htrace).
    apply scrape_item_requests_ok in Hitem as (url & Hurl & Htrace1).
    exists (url :: urls). split; [now constructor|].
    rewrite Htrace, Htrace1, <- app_assoc. reflexivity.
Qed.

(** However the loop ends, the requests made are for the first items of
    the listing, one each, in order. *)
Lemma scrape_loop_requests_any disaster_list :
  forall acc (w : world (R * list json)) res w',
    scrape_loop traced str_list disaster_list acc w = (res, w') ->
    exists n urls,
      Forall2 (fun d url => Py.getitem d "href" = Ok url)
        (firstn n disaster_list) urls /\
      snd (retriever w') = snd (retriever w) ++ urls.
Proof.
  induction disaster_list as [|d ds IH]; intros acc w res w'.
  - intros [= _ <-]. exists 0, []. split; [constructor|now rewrite app_nil_r].
  - cbn [scrape_loop]. unfold bind at 1.
    destruct (scrape_item traced str_list acc d w) as [[acc'|e] w1] eqn:Hitem.
    + intros Hloop. apply IH in Hloop as (n & urls & Hurls & Htrace).
      apply scrape_item_requests_ok in Hitem as (url & Hurl & Htrace1).
      exists (S n), (url :: urls). split; [now constructor|].
      rewrite Htrace, Htrace1, <- app_assoc. reflexivity.
    + intros [= <- <-]. apply scrape_item_requests in Hitem as [Hnone Hone].
      destruct (Py.getitem d "href") as [url|e'] eqn:Hurl.
      * exists 1, [url]. split; [repeat constructor; assumption|now apply Hone].
      * exists 0, []. split; [constructor|].
        rewrite app_nil_r. now apply (Hnone e').
Qed.

End Requests.

(** X7.  A run that returns has made one request for the listing and
    then exactly one request per listed item, for the item's ["href"],
    in the order of the listing: no item is requested twice, none is
    skipped, nothing else is requested.  A run that raises has made the
    same requests for the first items of the listing and none after the
    item it stopped at. *)
Theorem scrape_requests_once_per_item :
  forall (R : Type) (download_json : json -> R -> fetch * R)
         (str_list : list json -> string) (config : configuration)
         (w w' : world (R * list json)) (listing : json) (st : R)
         (items : list json) (res : result (list json)),
    download_json (JScalar (SStr (data_url config))) (fst (retriever w))
      = (Returned listing, st) ->
    Py.getitem listing "data" = Ok (JList items) ->
    scrape_data (tracing download_json) str_list config w = (res, w') ->
    (exists n urls,
        Forall2 (fun d url => Py.getitem d "href" = Ok url) (firstn n items) urls /\
        snd (retriever w')
        = snd (retriever w) ++ JScalar (SStr (data_url config)) :: urls) /\
    (forall rows,
        res = Ok rows ->
        exists urls,
          Forall2 (fun d url => Py.getitem d "href" = Ok url) items urls /\
          snd (retriever w')
          = snd (retriever w) ++ JScalar (SStr (data_url config)) :: urls).
Proof.
  intros R download_json str_list config w w' listing st items res
    Hlist Hdata Hrun.
  assert (Hd : tracing download_json (JScalar (SStr (data_url config))) (retriever w)
               = (Returned listing,
                  (st, snd (retriever w) ++ [JScalar (SStr (data_url config))]))).
  { unfold tracing. now rewrite Hlist. }
  rewrite (scrape_data_is_loop _ _ _ _ Hd Hdata) in Hrun. split.
  - apply scrape_loop_requests_any in Hrun as (n & urls & Hurls & Htrace).
    exists n, urls. split; [assumption|].
    cbn [retriever snd] in Htrace. rewrite Htrace, <- app_assoc. reflexivity.
  - intros rows ->.
    apply scrape_loop_requests in Hrun as (urls & Hurls & Htrace).
    exists urls. split; [assumption|].
    cbn [retriever snd] in Htrace. rewrite Htrace, <- app_assoc. reflexivity.
Qed.

Lemma scrape_requests_once_per_item_witness :
  let w := {| retriever := (0, @nil json); logged := [] |} in
  let items :=
    [Fixture.item "52092" "Sudan: Floods - Jul 2024"; Fixture.item "1" "withdrawn";
     Fixture.item "2" "unreachable"; Fixture.item "3" "blank"] in
  let run := scrape_data (tracing Fixture.download_json) str_list_unused
               Fixture.config w in
  let rows := match fst run with Ok rows => rows | Raise _ => [] end in
  (Fixture.download_json (JScalar (SStr (data_url Fixture.config))) 0
   = (Returned Fixture.listing, 1) /\
   Py.getitem Fixture.listing "data" = Ok (JList items) /\
   run = (Ok rows, snd run)) /\
  exists urls,
    Forall2 (fun d url => Py.getitem d "href" = Ok url) items urls /\
    snd (retriever (snd run))
    = [] ++ JScalar (SStr (data_url Fixture.config)) :: urls.
Proof.
  intros w items run rows.
  assert (H1 : Fixture.download_json (JScalar (SStr (data_url Fixture.config))) 0
               = (Returned Fixture.listing, 1)) by reflexivity.
  assert (H2 : Py.getitem Fixture.listing "data" = Ok (JList items)) by reflexivity.
  assert (H3 : run = (Ok rows, snd run)) by reflexivity.
  split; [repeat split; assumption|].
  exact (proj2 (@scrape_requests_once_per_item nat Fixture.download_json
                  str_list_unused Fixture.config w (snd run) Fixture.listing 1
                  items (Ok rows) H1 H2 H3) rows eq_refl).
Defined.

(** ** How a failed fetch is logged *)

Section NotFound.

Lemma contains_prefix needle post : PyStr.contains needle (needle ++ post) = true.
Proof.
  destruct needle as [|c needle]; [now destruct post|].
  cbn [append PyStr.contains].
  change (String.prefix (String c needle) (String c (needle ++ post)))
    with (PyStr.startswith (String c needle ++ post) (String c needle)).
  now rewrite startswith_app.
Qed.

(** [needle in s] holds exactly when [needle] occurs in [s]. *)
Lemma contains_iff needle s :
  PyStr.contains needle s = true
  <-> exists pre post, s = (pre ++ needle ++ post)%string.
Proof.
  split.
  - induction s as [|c s IH]; cbn [PyStr.contains].
    + rewrite orb_false_r. intros H.
      change (String.prefix needle "") with (PyStr.startswith "" needle) in H.
      apply startswith_inv in H. exists "". eexists. simpl. exact H.
    + intros H. apply orb_prop in H as [H|H].
      * change (String.prefix needle (String c s))
          with (PyStr.startswith (String c s) needle) in H.
        apply startswith_inv in H. exists "". eexists. simpl. exact H.
      * destruct (IH H) as (pre & post & ->).
        exists (String c pre), post. reflexivity.
  - intros (pre & post & ->). induction pre as [|c pre IH].
    + change ("" ++ needle ++ post)%string with (needle ++ post)%string.
      apply contains_prefix.
    + change (String c pre ++ needle ++ post)%string
        with (String c (pre ++ needle ++ post)).
      cbn [PyStr.contains]. rewrite IH. apply orb_true_r.
Qed.

End NotFound.

(** X8.  A fetch that raises is told apart by the text of the exception
    alone: when ["404"] occurs anywhere in the text the item is logged at
    info level as not found, otherwise at error level; either way the
    row list is returned as it was and the loop goes on.  The name in the
    log entry is looked up only then: if the item has no
    [fields][name], the round raises instead of skipping. *)
Theorem fetch_error_is_classified_by_text :
  forall (R : Type) (download_json : json -> R -> fetch * R)
         (str_list : list json -> string) (acc : list json) (disaster url : json)
         (msg : string) (st : R) (w : world R),
    Py.getitem disaster "href" = Ok url ->
    download_json url (retriever w) = (Raised msg, st) ->
    (forall name,
        disaster_name disaster = Ok name ->
        ((exists pre post, msg = (pre ++ "404" ++ post)%string) ->
         scrape_item download_json str_list acc disaster w
         = (Ok acc, {| retriever := st;
                       logged := logged w ++ [Info404 name msg] |})) /\
        (~ (exists pre post, msg = (pre ++ "404" ++ post)%string) ->
         scrape_item download_json str_list acc disaster w
         = (Ok acc, {| retriever := st;
                       logged := logged w ++ [ErrorDownloading name msg] |}))) /\
    (forall e,
        disaster_name disaster = Raise e ->
        scrape_item download_json str_list acc disaster w
        = (Raise e, {| retriever := st; logged := logged w |})).
Proof.
  intros R download_json str_list acc disaster url msg st w Hurl Hd.
  split.
  - intros name Hname.
    assert (Hrun : scrape_item download_json str_list acc disaster w
              = (Ok acc,
                 {| retriever := st;
                    logged := logged w
                              ++ [if PyStr.contains "404" msg
                                  then Info404 name msg
                                  else ErrorDownloading name msg] |})).
    { unfold scrape_item, bind, lift, ret, logger, try_download.
      rewrite Hurl, Hd, Hname. now destruct (PyStr.contains "404" msg). }
    split; intros H; rewrite Hrun.
    + apply contains_iff in H. now rewrite H.
    + destruct (PyStr.contains "404" msg) eqn:E; [|reflexivity].
      apply contains_iff in E. contradiction.
  - intros e Hname. unfold scrape_item, bind, lift, ret, logger, try_download.
    now rewrite Hurl, Hd, Hname.
Qed.

Lemma fetch_error_is_classified_by_text_witness :
  let disaster := Fixture.item "9" "slow" in
  let url := JScalar (SStr "https://api.reliefweb.int/v1/disasters/9") in
  let msg := "Read timed out after 14040 ms" in
  let download_json := fun (_ : json) (calls : nat) => (Raised msg, S calls) in
  (Py.getitem disaster "href" = Ok url /\
   download_json url 0 = (Raised msg, 1) /\
   disaster_name disaster = Ok (JScalar (SStr "slow")) /\
   exists pre post, msg = (pre ++ "404" ++ post)%string) /\
  scrape_item download_json str_list_unused [] disaster Fixture.start
  = (Ok [], {| retriever := 1;
               logged := [Info404 (JScalar (SStr "slow")) msg] |}).
Proof.
  intros disaster url msg download_json.
  assert (H1 : Py.getitem disaster "href" = Ok url) by reflexivity.
  assert (H2 : download_json url (retriever Fixture.start) = (Raised msg, 1))
    by reflexivity.
  assert (H3 : disaster_name disaster = Ok (JScalar (SStr "slow"))) by reflexivity.
  assert (H4 : exists pre post, msg = (pre ++ "404" ++ post)%string)
    by (exists "Read timed out after 1", "0 ms"; reflexivity).
  split; [repeat split; assumption|].
  exact (proj1 (proj1 (@fetch_error_is_classified_by_text nat download_json
                         str_list_unused [] disaster url msg 1 Fixture.start H1 H2)
                  (JScalar (SStr "slow")) H3) H4).
Defined.

(** ** From the rows to the dataset *)

Section Dataset.
Variable str_list : list json -> string.

Lemma wf_filter_kept keys (fd : flat) :
  Dict.wf fd -> Dict.wf (filter (kept keys) fd).
Proof.
  unfold Dict.wf, Dict.keys. induction fd as [|[k v] fd IH]; simpl; [trivial|].
  intros H. inversion H as [|? ? Hk Hfd]; subst.
  destruct (kept keys (k, v)); simpl; [|auto].
  constructor; [|auto]. intros Hin. apply Hk.
  apply in_map_iff in Hin as (kv & Hkv & Hin). apply filter_In in Hin as [Hin _].
  apply in_map_iff. now exists kv.
Qed.

Lemma removed_not_in_kept (fd : flat) k :
  In k remove_keys -> ~ In k (Dict.keys (filter (kept remove_keys) fd)).
Proof.
  intros Hk. apply get_None_keys. rewrite get_filter_kept.
  apply existsb_eqb_In in Hk. now rewrite Hk.
Qed.

(** Every row is a dictionary of leaves, made by the flattener and the
    removal of keys. *)
Lemma format_row_flat body row :
  format_row str_list body = Ok row ->
  exists fd : flat,
    Dict.wf fd /\ row = json_of_flat fd /\
    forall k, In k remove_keys -> ~ In k (Dict.keys fd).
Proof.
  intros H. apply format_row_inv in H as (raw & _ & ->).
  eexists. split; [apply wf_filter_kept, wf_flatten_data|].
  split; [reflexivity|]. intros k. apply removed_not_in_kept.
Qed.

End Dataset.

(** X9.  Every row [scrape_data] returns is flat: a dictionary whose
    values are all leaves (string, number, boolean or null), never a
    nested dictionary or list, whatever the retriever answered. *)
Theorem scrape_rows_are_flat :
  forall (R : Type) (download_json : json -> R -> fetch * R)
         (str_list : list json -> string) (config : configuration)
         (w w' : world R) (rows : list json),
    scrape_data download_json str_list config w = (Ok rows, w') ->
    Forall
      (fun row =>
         exists fd : flat,
           row = json_of_flat fd /\
           forall k v, Py.getitem row k = Ok v -> exists s, v = JScalar s)
      rows.
Proof.
  intros R download_json str_list config w w' rows H.
  eapply scrape_data_rows; [|exact H].
  intros body row Hrow.
  apply format_row_flat in Hrow as (fd & _ & -> & _).
  exists fd. split; [reflexivity|]. intros k v. rewrite get_json_of_flat.
  destruct (Dict.get fd k) as [s|]; [|discriminate].
  intros [= <-]. now exists s.
Qed.

Lemma scrape_rows_are_flat_witness :
  let run := scrape_data Fixture.download_json str_list_unused Fixture.config
               Fixture.start in
  let rows := match fst run with Ok rows => rows | Raise _ => [] end in
  run = (Ok rows, snd run) /\
  Forall
    (fun row =>
       exists fd : flat,
         row = json_of_flat fd /\
         forall k v, Py.getitem row k = Ok v -> exists s, v = JScalar s)
    rows.
Proof.
  intros run rows.
  assert (H : run = (Ok rows, snd run)) by reflexivity.
  split; [exact H|].
  exact (@scrape_rows_are_flat nat Fixture.download_json str_list_unused
           Fixture.config Fixture.start (snd run) rows H).
Defined.

(** X10.  [main]'s two steps together.  When the scrape raises, the
    exception is the outcome and the library is not called.  When the
    scrape returns no row, the outcome is [IndexError].  Otherwise
    [generate_resource_from_iterable] is called once with the rows as
    they are: its column list is the key list of the first row alone, in
    that row's order, without repeats and without any of the removed
    keys; its tags are the configured ones and its date column is
    ["date-event"], whether or not that is one of the columns.  What the
    call does is the outcome: an exception it raises is raised by the
    run, and when it returns the dataset is returned.  No request is made
    after the scrape. *)
Theorem scrape_then_generate :
  forall (R : Type) (download_json : json -> R -> fetch * R)
         (str_list : list json -> string) (config : configuration)
         (temp_dir : string)
         (generate_resource_from_iterable : resource_call -> result unit)
         (w : world R),
    (forall e w0,
        scrape_data download_json str_list config w = (Raise e, w0) ->
        scrape_and_generate download_json str_list config temp_dir
          generate_resource_from_iterable w
        = (Raise e, w0)) /\
    (forall w0,
        scrape_data download_json str_list config w = (Ok [], w0) ->
        fst (scrape_and_generate download_json str_list config temp_dir
               generate_resource_from_iterable w)
        = Raise IndexError) /\
    (forall row rest w0,
        scrape_data download_json str_list config w = (Ok (row :: rest), w0) ->
        exists (fd : flat) (call : resource_call) w',
          row = json_of_flat fd /\
          headers call = Dict.keys fd /\
          NoDup (headers call) /\
          (forall k, In k remove_keys -> ~ In k (headers call)) /\
          iterable call = row :: rest /\
          hxltags call = hxl_tags config /\
          datecol call = "date-event" /\
          retriever w' = retriever w0 /\
          (forall e,
              generate_resource_from_iterable call = Raise e ->
              scrape_and_generate download_json str_list config temp_dir
                generate_resource_from_iterable w
              = (Raise e, w')) /\
          (generate_resource_from_iterable call = Ok tt ->
           exists ds,
             scrape_and_generate download_json str_list config temp_dir
               generate_resource_from_iterable w
             = (Ok ds, w') /\
             resource ds = call)).
Proof.
  intros R download_json str_list config temp_dir lib w.
  split; [|split].
  - intros e w0 H. unfold scrape_and_generate, bind. now rewrite H.
  - intros w0 H. unfold scrape_and_generate, bind. now rewrite H.
  - intros row rest w0 H.
    assert (Hrow : exists fd : flat,
               Dict.wf fd /\ row = json_of_flat fd /\
               forall k, In k remove_keys -> ~ In k (Dict.keys fd)).
    { assert (Hall : Forall
                (fun row => exists fd : flat,
                     Dict.wf fd /\ row = json_of_flat fd /\
                     forall k, In k remove_keys -> ~ In k (Dict.keys fd))
                (row :: rest)).
      { eapply scrape_data_rows; [|exact H].
        intros body r. apply format_row_flat. }
      now inversion Hall. }
    destruct Hrow as (fd & Hwf & -> & Hremoved).
    assert (Hkeys : Dict.keys (map (fun kv => (fst kv, JScalar (snd kv))) fd)
                    = Dict.keys fd).
    { unfold Dict.keys. rewrite map_map. reflexivity. }
    exists fd.
    exists {| headers := Dict.keys fd;
              iterable := json_of_flat fd :: rest;
              hxltags := hxl_tags config;
              folder := temp_dir;
              filename := _FILENAME;
              resourcedata :=
                [("name", _FILENAME);
                 ("description",
                  "CSV with HXL tags of ongoing and past disasters covered by ReliefWeb")];
              datecol := _DATE_FIELD |}.
    exists {| retriever := retriever w0;
              logged := logged w0 ++ [InfoCreating "ReliefWeb Disasters List"] |}.
    cbn [headers iterable hxltags datecol retriever].
    split; [reflexivity|]. split; [reflexivity|].
    split; [exact Hwf|]. split; [exact Hremoved|].
    split; [reflexivity|]. split; [reflexivity|]. split; [reflexivity|].
    split; [reflexivity|].
    split.
    + intros e He. unfold scrape_and_generate, bind at 1. rewrite H.
      unfold generate_dataset, bind, lift, logger, ret.
      cbn [first_row json_of_flat Py.keys retriever logged].
      rewrite Hkeys, He. reflexivity.
    + intros Hok. eexists. unfold scrape_and_generate, bind at 1. rewrite H.
      unfold generate_dataset, bind, lift, logger, ret.
      cbn [first_row json_of_flat Py.keys retriever logged].
      rewrite Hkeys, Hok. split; reflexivity.
Qed.

Lemma scrape_then_generate_witness :
  let run := scrape_data Fixture.download_json str_list_unused Fixture.config
               Fixture.start in
  let both := scrape_and_generate Fixture.download_json str_list_unused
                Fixture.config "/tmp" Fixture.generate_resource_from_iterable
                Fixture.start in
  let row :=
    JDict [("id", JScalar (SInt 52092));
           ("name", JScalar (SStr "Sudan: Floods - Jul 2024"));
           ("primary_type-id", JScalar (SInt 4611));
           ("primary_type-code", JScalar (SStr "FL"));
           ("type-id", JScalar (SStr "4624, 4611"));
           ("type-code", JScalar (SStr "FF, FL"))] in
  run = (Ok [row], snd run) /\
  fst both = Raise KeyError /\
  exists (fd : flat) (call : resource_call) w',
    row = json_of_flat fd /\
    headers call = Dict.keys fd /\
    NoDup (headers call) /\
    (forall k, In k remove_keys -> ~ In k (headers call)) /\
    iterable call = [row] /\
    hxltags call = hxl_tags Fixture.config /\
    datecol call = "date-event" /\
    retriever w' = retriever (snd run) /\
    (forall e,
        Fixture.generate_resource_from_iterable call = Raise e ->
        both = (Raise e, w')) /\
    (Fixture.generate_resource_from_iterable call = Ok tt ->
     exists ds, both = (Ok ds, w') /\ resource ds = call).
Proof.
  intros run both row.
  assert (H : run = (Ok [row], snd run)) by reflexivity.
  split; [exact H|]. split; [reflexivity|].
  exact (proj2 (proj2 (@scrape_then_generate nat Fixture.download_json
                         str_list_unused Fixture.config "/tmp"
                         Fixture.generate_resource_from_iterable Fixture.start))
           row [] (snd run) H).
Defined.

(** * Further properties of the store model *)

Section Loading.

Lemma reify_scalar fuel (h : Store.store) s :
  Store.reify fuel h (Store.VScalar s) = Some (JScalar s).
Proof. now destruct fuel. Qed.

Lemma load_each_well (A : Type) load_one (tree : A -> json) (l : list A) :
  Forall (loads_well load_one tree) l ->
  forall h,
    (exists ext, snd (Loader.load_each load_one l h) = h ++ ext) /\
    (forall ext m,
        Forall (fun x => Loader.depth (tree x) <= m) l ->
        Store.all_some
          (Store.reify m (snd (Loader.load_each load_one l h) ++ ext))
          (fst (Loader.load_each load_one l h))
        = Some (map tree l)) /\
    List.length (fst (Loader.load_each load_one l h)) = List.length l.
Proof.
  induction 1 as [|x l Hx _ IH]; intros h.
  - cbn [Loader.load_each fst snd]. split; [exists []; now rewrite app_nil_r|].
    split; reflexivity.
  - cbn [Loader.load_each]. destruct (Hx h) as [[ext1 Hext1] Hreify].
    destruct (load_one x h) as [v h1]. cbn [fst snd] in *.
    destruct (IH h1) as [[ext2 Hext2] [Hall Hlen]].
    destruct (Loader.load_each load_one l h1) as [vs h2]. cbn [fst snd] in *.
    split; [exists (ext1 ++ ext2); subst; now rewrite app_assoc|].
    split; [|simpl; now rewrite Hlen].
    intros ext m Hm. inversion Hm as [|? ? Hmx Hml]; subst.
    cbn [Store.all_some map].
    rewrite <- app_assoc, (Hreify (ext2 ++ ext) m Hmx), app_assoc.
    now rewrite (Hall ext m Hml).
Qed.

Lemma max_bound (A : Type) (size : A -> nat) (l : list A) m :
  fold_right (fun x => Nat.max (size x)) 0 l <= m ->
  Forall (fun x => size x <= m) l.
Proof.
  induction l as [|x l IH]; simpl; intros H; constructor; [lia|apply IH; lia].
Qed.

Lemma all_some_keys m (h : Store.store) (d : list (string * json)) : forall vs,
  Store.all_some (Store.reify m h) vs = Some (map snd d) ->
  Store.all_some
    (fun kv => option_map (pair (fst kv)) (Store.reify m h (snd kv)))
    (combine (map fst d) vs)
  = Some d.
Proof.
  induction d as [|[k t] d IH]; intros vs; [reflexivity|].
  destruct vs as [|v vs]; [discriminate|]. cbn [map fst snd combine Store.all_some].
  destruct (Store.reify m h v) as [t'|]; [|discriminate].
  destruct (Store.all_some (Store.reify m h) vs) as [ts|] eqn:Hvs; [|discriminate].
  intros [= -> ->]. cbn [option_map]. now rewrite (IH vs Hvs).
Qed.

Lemma read_in_extension (h ext : Store.store) o :
  Store.read ((h ++ [o]) ++ ext) (List.length h) = Some o.
Proof. apply read_old, read_last. Qed.

(** Loading adds objects to the store and the value returned stands for
    the tree, with fuel for its depth or more, in every later store. *)
Lemma load_well t : loads_well Loader.load (fun t => t) t.
Proof.
  induction t as [s|l IH|d IH] using json_ind; intros h.
  - cbn [Loader.load fst snd]. split; [exists []; now rewrite app_nil_r|].
    intros ext m _. apply reify_scalar.
  - cbn [Loader.load].
    destruct (load_each_well IH h) as [[ext1 Hext1] [Hall _]].
    destruct (Loader.load_each Loader.load l h) as [vs h1]. cbn [fst snd] in *.
    split; [exists (ext1 ++ [Store.OList vs]); subst; now rewrite app_assoc|].
    intros ext m Hm. cbn [Loader.depth] in Hm.
    destruct m as [|m]; [lia|]. cbn [Store.reify].
    rewrite read_in_extension, <- app_assoc.
    rewrite Hall by (apply max_bound; lia). now rewrite map_id.
  - cbn [Loader.load].
    assert (IH' : Forall (loads_well (fun kv => Loader.load (snd kv))
                            (fun kv : string * json => snd kv)) d).
    { eapply Forall_impl; [|exact IH]. intros kv H. exact H. }
    destruct (load_each_well IH' h) as [[ext1 Hext1] [Hall _]].
    destruct (Loader.load_each (fun kv => Loader.load (snd kv)) d h) as [vs h1].
    cbn [fst snd] in *.
    split; [eexists (ext1 ++ [_]); subst; now rewrite app_assoc|].
    intros ext m Hm. cbn [Loader.depth] in Hm.
    destruct m as [|m]; [lia|]. cbn [Store.reify].
    rewrite read_in_extension, <- app_assoc.
    rewrite all_some_keys; [reflexivity|].
    apply Hall. apply (max_bound (fun kv => Loader.depth (snd kv))). lia.
Qed.

End Loading.

(** X11.  Every decoded document has its place in the store: loading a
    tree adds objects and returns a value that stands for the tree; the
    flattener run on that value, with fuel for the depth of the tree or
    more, returns a new dictionary holding exactly what the flattener
    computes on the tree, and the objects of the document are as they
    were loaded. *)
Theorem flatten_loaded_document :
  forall (str_list : list json -> string) (sep : string) (t : json)
         (h : Store.store) (fuel : nat),
    Loader.depth t <= fuel ->
    let data := fst (Loader.load t h) in
    let h1 := snd (Loader.load t h) in
    (exists ext, h1 = h ++ ext) /\
    Store.reify fuel h1 data = Some t /\
    Store._flatten_data str_list sep fuel data h1
    = Some (List.length h1,
            h1 ++ [Store.ODict
                     (Store.of_flat (_flatten_data str_list sep t))]).
Proof.
  intros str_list sep t h fuel Hfuel data h1.
  destruct (load_well t h) as [Hext Hreify].
  assert (Ht : Store.reify fuel h1 data = Some t).
  { specialize (Hreify [] fuel Hfuel). now rewrite app_nil_r in Hreify. }
  split; [exact Hext|]. split; [exact Ht|].
  now apply flatten_data_simulates.
Qed.

Lemma flatten_loaded_document_witness :
  let t := JDict [("type", JList [JDict [("id", JScalar (SInt 1))];
                                  JDict [("id", JScalar (SInt 2))]])] in
  Loader.depth t <= 3 /\
  Store._flatten_data str_list_unused "-" 3 (Store.VRef 3)
    [Store.ODict [("id", Store.VScalar (SInt 1))];
     Store.ODict [("id", Store.VScalar (SInt 2))];
     Store.OList [Store.VRef 0; Store.VRef 1];
     Store.ODict [("type", Store.VRef 2)]]
  = Some (4,
          [Store.ODict [("id", Store.VScalar (SInt 1))];
           Store.ODict [("id", Store.VScalar (SInt 2))];
           Store.OList [Store.VRef 0; Store.VRef 1];
           Store.ODict [("type", Store.VRef 2)];
           Store.ODict [("type-id", Store.VScalar (SStr "1, 2"))]]).
Proof.
  intros t.
  assert (H : Loader.depth t <= 3) by (simpl; lia).
  split; [exact H|].
  exact (proj2 (proj2 (flatten_loaded_document str_list_unused "-" t [] H))).
Defined.

(** * The columns *)

Section Columns.
Variable str_list : list json -> string.
Variable sep : string.

Lemma keys_set_extends (V : Type) (d : Dict.t V) k v :
  exists ext, Dict.keys (Dict.set d k v) = Dict.keys d ++ ext.
Proof.
  rewrite keys_set. destruct (Dict.mem d k).
  - exists []. now rewrite app_nil_r.
  - now exists [k].
Qed.

Lemma keys_emit_extends p li : forall fd,
  exists ext, Dict.keys (emit sep p li fd) = Dict.keys fd ++ ext.
Proof.
  induction li as [|[k v] li IH]; intros fd; cbn [emit].
  - exists []. now rewrite app_nil_r.
  - destruct (IH (Dict.set fd (p ++ sep ++ k)%string (joined v))) as [ext2 H2].
    destruct (keys_set_extends fd (p ++ sep ++ k)%string (joined v)) as [ext1 H1].
    exists (ext1 ++ ext2). now rewrite H2, H1, app_assoc.
Qed.

(** The flattener never drops or moves a key: the keys it finds stay in
    front, in their order, and new ones are appended. *)
Lemma keys_flatten_inner_extends t : forall p fd,
  exists ext,
    Dict.keys (_flatten_inner str_list sep t p fd) = Dict.keys fd ++ ext.
Proof.
  induction t as [s|l IH|d IH] using json_ind; intros p fd.
  - cbn [_flatten_inner]. apply keys_set_extends.
  - rewrite flatten_inner_list.
    assert (Hloop : forall li,
      exists ext,
        Dict.keys (fst (each_value str_list sep p l (fd, li))) = Dict.keys fd ++ ext).
    { unfold each_value. revert fd.
      induction IH as [|value l Hv _ IHl]; intros fd li; cbn [fold_left].
      - exists []. cbn [fst]. now rewrite app_nil_r.
      - destruct value as [s|inner|d]; cbn [value_step]; try apply IHl.
        destruct (Hv p fd) as [ext1 H1].
        destruct (IHl (_flatten_inner str_list sep (JDict d) p fd)
                    (collect (scan_prefix (p ++ sep)
                                (_flatten_inner str_list sep (JDict d) p fd) []) li))
          as [ext2 H2].
        exists (ext1 ++ ext2). rewrite app_assoc, <- H1. exact H2. }
    destruct (Hloop []) as [ext1 H1].
    destruct (keys_emit_extends p
                (snd (each_value str_list sep p l (fd, [])))
                (fst (each_value str_list sep p l (fd, [])))) as [ext2 H2].
    exists (ext1 ++ ext2). rewrite app_assoc, <- H1. exact H2.
  - rewrite flatten_inner_dict. unfold each_item. revert fd.
    induction IH as [|[k v] d Hv _ IHd]; intros fd; cbn [fold_left fst snd].
    + exists []. now rewrite app_nil_r.
    + destruct (Hv (new_key sep p k) fd) as [ext1 H1].
      destruct (IHd (_flatten_inner str_list sep v (new_key sep p k) fd))
        as [ext2 H2].
      exists (ext1 ++ ext2). rewrite app_assoc, <- H1. exact H2.
Qed.

Lemma keys_flatten_inner_incl t p fd k :
  In k (Dict.keys fd) -> In k (Dict.keys (_flatten_inner str_list sep t p fd)).
Proof.
  intros H. destruct (keys_flatten_inner_extends t p fd) as [ext ->].
  apply in_or_app. now left.
Qed.

(** When every collected sub-key is already a key of the accumulator,
    writing the joins changes values only. *)
Lemma keys_emit_present p li : forall fd,
  (forall k, In k (Dict.keys li) -> In (p ++ sep ++ k)%string (Dict.keys fd)) ->
  Dict.keys (emit sep p li fd) = Dict.keys fd.
Proof.
  induction li as [|[k v] li IH]; intros fd H; cbn [emit]; [reflexivity|].
  rewrite IH.
  - apply keys_set_present. apply H. now left.
  - intros k' Hk'. rewrite keys_set_present by (apply H; now left).
    apply H. now right.
Qed.

(** Over a list of mappings every collected sub-key comes from a key of
    the accumulator. *)
Lemma each_value_collected_present p l : forall fd li,
  Forall (fun e => is_dict e = true) l ->
  Dict.wf fd ->
  (forall k, In k (Dict.keys li) -> In (p ++ sep ++ k)%string (Dict.keys fd)) ->
  fst (each_value str_list sep p l (fd, li))
  = fold_left (fun fd e => _flatten_inner str_list sep e p fd) l fd /\
  forall k,
    In k (Dict.keys (snd (each_value str_list sep p l (fd, li)))) ->
    In (p ++ sep ++ k)%string
      (Dict.keys (fst (each_value str_list sep p l (fd, li)))).
Proof.
  unfold each_value.
  induction l as [|e l IH]; intros fd li Hl Hwf Hinv; [split; [reflexivity|exact Hinv]|].
  inversion Hl as [|? ? He Hl']; subst.
  cbn [fold_left]. rewrite (value_step_dict str_list sep p (fd, li) e He).
  cbn [fst snd]. apply IH; [assumption|now apply wf_flatten_inner|].
  intros k Hk.
  destruct (Dict.get (_flatten_inner str_list sep e p fd) (p ++ sep ++ k)%string)
    as [v|] eqn:Hget; [eapply get_Some_keys; eassumption|].
  apply keys_flatten_inner_incl, Hinv.
  destruct (Dict.get li k) as [vs|] eqn:Hli; [eapply get_Some_keys; eassumption|].
  exfalso. revert Hk. apply get_None_keys.
  rewrite get_collect_scan by now apply wf_flatten_inner.
  now rewrite app_assoc_s, Hget.
Qed.

End Columns.

(** X12.  The flattener never drops or moves a key: the keys the
    accumulator holds before a call are, in the same order, the first
    keys after it, and what the call adds comes after them.  A list of
    mappings adds no key of its own: its keys, and their order, are those
    left by flattening its elements one after the other at the path of
    the list; joining changes values only. *)
Theorem flatten_columns_append_only :
  forall (str_list : list json -> string) (sep : string),
    (forall t p fd,
        exists ext,
          Dict.keys (_flatten_inner str_list sep t p fd) = Dict.keys fd ++ ext) /\
    (forall l p fd,
        Forall (fun e => is_dict e = true) l ->
        Dict.wf fd ->
        Dict.keys (_flatten_inner str_list sep (JList l) p fd)
        = Dict.keys
            (fold_left (fun fd e => _flatten_inner str_list sep e p fd) l fd)).
Proof.
  intros str_list sep. split.
  - apply keys_flatten_inner_extends.
  - intros l p fd Hl Hwf. rewrite flatten_inner_list.
    destruct (@each_value_collected_present str_list sep p l fd [] Hl Hwf)
      as [Hfst Hpresent]; [intros k []|].
    rewrite keys_emit_present by exact Hpresent.
    f_equal. exact Hfst.
Qed.

Lemma flatten_columns_append_only_witness :
  let l := [JDict [("id", JScalar (SInt 1)); ("code", JScalar (SStr "FF"))];
            JDict [("id", JScalar (SInt 2)); ("primary", JScalar (SBool true))]] in
  let fd := [("name", SStr "Flood")] in
  (Forall (fun e => is_dict e = true) l /\ Dict.wf fd) /\
  Dict.keys (_flatten_inner str_list_unused "-" (JList l) "type" fd)
  = ["name"; "type-id"; "type-code"; "type-primary"].
Proof.
  intros l fd.
  assert (H1 : Forall (fun e => is_dict e = true) l) by (repeat constructor).
  assert (H2 : Dict.wf fd) by (repeat constructor; simpl; tauto).
  split; [split; assumption|].
  exact (proj2 (flatten_columns_append_only str_list_unused "-") l "type" fd H1 H2).
Defined.

(** * The log of a run *)

Section Log.
Variable R : Type.
Variable download_json : json -> R -> fetch * R.
Variable str_list : list json -> string.
Variable answer : json -> fetch.
Hypothesis determined : forall url st, fst (download_json url st) = answer url.

Lemma scrape_item_log acc disaster w rows w' :
  scrape_item download_json str_list acc disaster w = (Ok rows, w') ->
  logged w' = logged w ++ skip_event answer disaster.
Proof.
  unfold scrape_item, skip_event, bind, lift, ret, logger, try_download.
  destruct (Py.getitem disaster "href") as [url|]; [|discriminate].
  rewrite <- (determined url (retriever w)).
  destruct (download_json url (retriever w)) as [[body|msg] st]; cbn [fst].
  - destruct (Py.truthy body); cbn [negb].
    + destruct (format_row str_list body) as [row|]; [|discriminate].
      intros [= _ <-]. cbn [logged].
      destruct (disaster_name disaster); now rewrite app_nil_r.
    + destruct (disaster_name disaster); [|discriminate].
      now intros [= _ <-].
  - destruct (disaster_name disaster); [|discriminate].
    destruct (PyStr.contains "404" msg); now intros [= _ <-].
Qed.

Lemma scrape_loop_log disaster_list : forall acc w rows w',
  scrape_loop download_json str_list disaster_list acc w = (Ok rows, w') ->
  logged w' = logged w ++ flat_map (skip_event answer) disaster_list.
Proof.
  induction disaster_list as [|d ds IH]; intros acc w rows w'.
  - intros [= _ <-]. simpl. now rewrite app_nil_r.
  - cbn [scrape_loop]. unfold bind at 1.
    destruct (scrape_item download_json str_list acc d w) as [[acc'|e] w1] eqn:Hitem;
      [|discriminate].
    intros Hloop. apply IH in Hloop. apply scrape_item_log in Hitem.
    rewrite Hloop, Hitem. cbn [flat_map]. now rewrite app_assoc.
Qed.

End Log.

(** X13.  When the answer to a request depends on the request alone, the
    log of a run that returns is the opening entry followed by one entry
    per skipped item, in the order of the listing, each with the name of
    its item: not-found or error for a fetch that raised, no-data for an
    empty body.  An item that gave a row leaves no entry. *)
Theorem scrape_log_in_listing_order :
  forall (R : Type) (download_json : json -> R -> fetch * R)
         (str_list : list json -> string) (config : configuration)
         (answer : json -> fetch)
         (w w' : world R) (listing : json) (items rows : list json),
    (forall url st, fst (download_json url st) = answer url) ->
    answer (JScalar (SStr (data_url config))) = Returned listing ->
    Py.getitem listing "data" = Ok (JList items) ->
    scrape_data download_json str_list config w = (Ok rows, w') ->
    logged w' = logged w ++ InfoScraping :: flat_map (skip_event answer) items.
Proof.
  intros R download_json str_list config answer w w' listing items rows
    Hdet Hlist Hdata Hrun.
  destruct (download_json (JScalar (SStr (data_url config))) (retriever w))
    as [r st] eqn:Hd.
  assert (Hr : r = Returned listing).
  { rewrite <- Hlist, <- (Hdet _ (retriever w)), Hd. reflexivity. }
  subst r. rewrite (scrape_data_is_loop _ _ _ _ Hd Hdata) in Hrun.
  apply (scrape_loop_log _ _ answer Hdet) in Hrun.
  cbn [logged] in Hrun. rewrite Hrun, <- app_assoc. reflexivity.
Qed.

Lemma scrape_log_in_listing_order_witness :
  let answer := fun url => fst (Fixture.download_json url 0) in
  let items :=
    [Fixture.item "52092" "Sudan: Floods - Jul 2024"; Fixture.item "1" "withdrawn";
     Fixture.item "2" "unreachable"; Fixture.item "3" "blank"] in
  let run := scrape_data Fixture.download_json str_list_unused Fixture.config
               Fixture.start in
  let rows := match fst run with Ok rows => rows | Raise _ => [] end in
  ((forall url st, fst (Fixture.download_json url st) = answer url) /\
   answer (JScalar (SStr (data_url Fixture.config))) = Returned Fixture.listing /\
   Py.getitem Fixture.listing "data" = Ok (JList items) /\
   run = (Ok rows, snd run)) /\
  logged (snd run)
  = logged Fixture.start ++ InfoScraping :: flat_map (skip_event answer) items.
Proof.
  intros answer items run rows.
  assert (H1 : forall url st, fst (Fixture.download_json url st) = answer url)
    by reflexivity.
  assert (H2 : answer (JScalar (SStr (data_url Fixture.config)))
               = Returned Fixture.listing) by reflexivity.
  assert (H3 : Py.getitem Fixture.listing "data" = Ok (JList items)) by reflexivity.
  assert (H4 : run = (Ok rows, snd run)) by reflexivity.
  split; [repeat split; assumption|].
  exact (@scrape_log_in_listing_order nat Fixture.download_json str_list_unused
           Fixture.config answer Fixture.start (snd run) Fixture.listing items rows
           H1 H2 H3 H4).
Defined.
